(** * The paragraph processing pipeline of the AI proofreader

    A shallow embedding of [review_modular.py] and [config.py]:
    loading paragraphs, preparing segments against the token budget,
    calling the remote correction service under the retry decorator,
    validating the reply, collecting one [Edit] per segment and building
    the report document.

    Python strings are sequences of Unicode code points, so a [str] is a
    list of code points; [lit] turns an ASCII literal into one. *)

From Stdlib Require Import List Bool Arith NArith ZArith Lia.
From Stdlib Require Strings.String Strings.Ascii Numbers.DecimalString.
Import ListNotations.
Import String.StringSyntax.
Delimit Scope string_scope with string.

Set Implicit Arguments.
Set Warnings "-register-all".

(* ------------------------------------------------------------------ *)
(** ** Python strings *)

Module PyStr.

Definition char := N.
Definition str := list char.

Definition lit (s : String.string) : str :=
  map Ascii.N_of_ascii (String.list_ascii_of_string s).
Arguments lit s%_string.

Definition char_eqb : char -> char -> bool := N.eqb.

Fixpoint eqb (a b : str) : bool :=
  match a, b with
  | [], [] => true
  | x :: a', y :: b' => char_eqb x y && eqb a' b'
  | _, _ => false
  end.

(** [str.isspace] on one code point: the code points CPython lists as
    whitespace. *)
Definition isspace (c : char) : bool :=
  (((9 <=? c) && (c <=? 13)) || ((28 <=? c) && (c <=? 32))
   || (c =? 133) || (c =? 160) || (c =? 5760)
   || ((8192 <=? c) && (c <=? 8202))
   || (c =? 8232) || (c =? 8233) || (c =? 8239) || (c =? 8287)
   || (c =? 12288))%N.

Fixpoint lstrip (s : str) : str :=
  match s with
  | [] => []
  | c :: s' => if isspace c then lstrip s' else s
  end.

Fixpoint rstrip (s : str) : str :=
  match s with
  | [] => []
  | c :: s' =>
      match rstrip s' with
      | [] => if isspace c then [] else [c]
      | r => c :: r
      end
  end.

(** [s.strip()] *)
Definition strip (s : str) : str := rstrip (lstrip s).

(** Truth value of a string: [if s:] *)
Definition truthy (s : str) : bool :=
  match s with [] => false | _ :: _ => true end.

(** [s.startswith(p)] *)
Fixpoint startswith (p s : str) : bool :=
  match p, s with
  | [], _ => true
  | _ :: _, [] => false
  | x :: p', y :: s' => char_eqb x y && startswith p' s'
  end.

(** [s[n:]] *)
Definition slice_from (n : nat) (s : str) : str := skipn n s.

(** [s.replace(old, new)]: occurrences of [old] are found left to right
    and do not overlap.  [skip] counts the characters of the occurrence
    just replaced that are still to be passed over. *)
Fixpoint replace_from (old new : str) (skip : nat) (s : str) : str :=
  match s with
  | [] => []
  | c :: s' =>
      match skip with
      | S k => replace_from old new k s'
      | O =>
          if startswith old s
          then new ++ replace_from old new (length old - 1) s'
          else c :: replace_from old new 0 s'
      end
  end.

Definition replace (old new s : str) : str :=
  match old with
  | [] => new ++ flat_map (fun c => c :: new) s
  | _ :: _ => replace_from old new 0 s
  end.

(** [str(n)] for a non-negative integer *)
Definition of_nat (n : nat) : str :=
  lit (DecimalString.NilEmpty.string_of_uint (Nat.to_uint n)).

(** [c * n] for a one-character string *)
Definition times (c : str) (n : nat) : str := concat (repeat c n).

End PyStr.

Import PyStr.

(* ------------------------------------------------------------------ *)
(** ** Configuration ([config.py]) *)

Module Config.

(** The double quote character, which the prompt template contains. *)
Definition dq : str := [34%N].

Definition SYSTEM_PROMPT : str :=
  lit "You are an expert copy-editor. You meticulously review text for grammatical errors, spelling mistakes, punctuation issues, clarity, conciseness, and overall readability. Return JSON only.".

Definition PLACEHOLDER : str := lit "{paragraph_text}".

Definition USER_PROMPT_TEMPLATE : str :=
  lit "Please proofread the following text.
Return a JSON object with the following three keys:

" ++ dq ++ lit "original" ++ dq ++ lit ": The verbatim input text you received.

" ++ dq ++ lit "corrected" ++ dq ++ lit ": The corrected version of the text. If no corrections are needed, this should be identical to the original.

" ++ dq ++ lit "feedback" ++ dq ++ lit ": A bulleted list (strings) of major issues fixed or suggestions for improvement. If no issues, provide an empty list or a single item like " ++ dq ++ lit "No major issues found." ++ dq ++ lit "

Original Text:

" ++ PLACEHOLDER.

(** The settings read from the process environment.  Times are in
    milliseconds in this development; the setting itself is in seconds. *)
Record settings := {
  OPENAI_MODEL : str;
  MAX_TOKENS_PER_API_REQUEST : Z;
  MAX_RETRY_TIME_SECONDS : Z
}.

Definition defaults : settings :=
  {| OPENAI_MODEL := lit "gpt-4o-mini";
     MAX_TOKENS_PER_API_REQUEST := 4000;
     MAX_RETRY_TIME_SECONDS := 60 |}.

End Config.

Import Config.

(* ------------------------------------------------------------------ *)
(** ** Values, exceptions and the outside world *)

(** What [json.loads] returns. A number keeps the text of its literal:
    nothing in the pipeline computes with it. *)
Inductive json :=
| JNull
| JBool (b : bool)
| JNumber (literal : str)
| JStr (s : str)
| JArr (items : list json)
| JObj (fields : list (str * json)).

(** The exception classes the handlers of the program tell apart.  All of
    them are under [Exception], and [OtherException] stands for every
    other class under it: an outcome [Raised e] is an exception that an
    [except Exception] handler catches.  What is not under [Exception]
    ([KeyboardInterrupt], [SystemExit]) ends the process and is not an
    outcome of this model. *)
Inductive exn_class :=
| RateLimitError
| APIConnectionError
| APITimeoutError
| JSONDecodeError
| ValidationError
| OtherException.

(** An exception, with [str(e)] as its message. *)
Record exn := { cls : exn_class; message : str }.

Inductive outcome (A : Type) :=
| Returned (a : A)
| Raised (e : exn).
Arguments Returned {A} a.
Arguments Raised {A} e.

Definition bind {A B} (m : outcome A) (k : A -> outcome B) : outcome B :=
  match m with
  | Returned a => k a
  | Raised e => Raised e
  end.

Definition is_class (c : exn_class) (e : exn) : bool :=
  match c, cls e with
  | RateLimitError, RateLimitError
  | APIConnectionError, APIConnectionError
  | APITimeoutError, APITimeoutError
  | JSONDecodeError, JSONDecodeError
  | ValidationError, ValidationError
  | OtherException, OtherException => true
  | _, _ => false
  end.

(** One entry of a pydantic validation error: which field, and why. *)
Inductive field_error :=
| Missing (field : str)
| StringType (field : str)
| ListType (field : str)
| ItemStringType (field : str) (index : nat)
| ModelType.

(** The request sent to the chat completion endpoint. Temperature and
    response format are fixed by the program and left out. *)
Record request := {
  req_model : str;
  req_system : str;
  req_user : str
}.

(** The libraries and the remote service, which the program only calls.
    - [encoding_for_model m] is the tokenizer [tiktoken] gives for the
      model [m], or the [KeyError] it raises for a model it does not
      know; the tokenizer gives the tokens of a text, or raises the
      [ValueError] it has for a text that holds a special token.
    - [chat_completions_create k r] is what the [k]-th call of the run to
      the service does on request [r]: it raises, or returns the content
      of the first choice ([None] when the content is absent).
    - [call_duration k] is how long that call takes, in milliseconds.
    - [json_loads] either returns a value or raises.
    - [str_ValidationError] renders a validation error as [str(e)].
    - [jitter k v] is the [k]-th random draw of the retry decorator, from
      the interval up to [v]. *)
Record Externals := {
  encoding_for_model : str -> outcome (str -> outcome (list N));
  chat_completions_create : nat -> request -> outcome (option str);
  call_duration : nat -> Z;
  json_loads : str -> outcome json;
  str_ValidationError : list field_error -> str;
  jitter : nat -> Z -> Z
}.

(** The state the run threads through its calls: how many calls to the
    service were made, and the clock in milliseconds. *)
Record World := { calls : nat; now : Z }.

Definition initial_world : World := {| calls := 0; now := 0 |}.

(* ------------------------------------------------------------------ *)
(** ** The data model of [review_modular.py] *)

Record Edit := {
  original : str;
  corrected : str;
  feedback : list str
}.

Record Segment := {
  id : nat;
  text : str;
  is_long : bool
}.

Definition lookup (key : str) (fields : list (str * json)) : option json :=
  match find (fun kv => PyStr.eqb key (fst kv)) fields with
  | Some kv => Some (snd kv)
  | None => None
  end.

Definition validate_str (field : str) (v : option json)
  : str + list field_error :=
  match v with
  | None => inr [Missing field]
  | Some (JStr s) => inl s
  | Some _ => inr [StringType field]
  end.

Fixpoint validate_items (field : str) (index : nat) (items : list json)
  : list str * list field_error :=
  match items with
  | [] => ([], [])
  | item :: rest =>
      let (values, errors) := validate_items field (S index) rest in
      match item with
      | JStr s => (s :: values, errors)
      | _ => (values, ItemStringType field index :: errors)
      end
  end.

Definition validate_str_list (field : str) (v : option json)
  : list str + list field_error :=
  match v with
  | None => inr [Missing field]
  | Some (JArr items) =>
      match validate_items field 0 items with
      | (values, []) => inl values
      | (_, errors) => inr errors
      end
  | Some _ => inr [ListType field]
  end.

Definition errors_of {A} (r : A + list field_error) : list field_error :=
  match r with inl _ => [] | inr errors => errors end.

(** [Edit.model_validate(raw)]: the reply must be an object whose
    [original] and [corrected] are strings and whose [feedback] is a list
    of strings; other keys are ignored.  All the errors found are reported
    together, in field order. *)
Definition model_validate (X : Externals) (raw : json) : outcome Edit :=
  match raw with
  | JObj fields =>
      let o := validate_str (lit "original") (lookup (lit "original") fields) in
      let c := validate_str (lit "corrected") (lookup (lit "corrected") fields) in
      let f := validate_str_list (lit "feedback") (lookup (lit "feedback") fields) in
      match o, c, f with
      | inl o', inl c', inl f' =>
          Returned {| original := o'; corrected := c'; feedback := f' |}
      | _, _, _ =>
          Raised {| cls := ValidationError;
                    message := str_ValidationError X
                                 (errors_of o ++ errors_of c ++ errors_of f) |}
      end
  | _ =>
      Raised {| cls := ValidationError;
                message := str_ValidationError X [ModelType] |}
  end.

(* ------------------------------------------------------------------ *)
(** ** Core functions *)

Section Pipeline.

Context (X : Externals) (cfg : settings).

(** [load_paragraphs]: [file] is [None] when the path does not exist, and
    otherwise the texts of the paragraphs of the document, in order. *)
Definition load_paragraphs (docx_path : str) (file : option (list str))
  : outcome (list str) :=
  match file with
  | None =>
      Raised {| cls := OtherException;
                message := lit "Input file '" ++ docx_path ++ lit "' not found." |}
  | Some texts =>
      Returned (map strip (filter (fun t => truthy (strip t)) texts))
  end.

(** The token count of the prompt around the paragraph. *)
Definition prompt_overhead (enc : str -> outcome (list N)) : outcome Z :=
  bind (enc (replace PLACEHOLDER (lit "") USER_PROMPT_TEMPLATE))
    (fun template_tokens =>
  bind (enc SYSTEM_PROMPT) (fun system_tokens =>
  Returned (Z.of_nat (length template_tokens)
            + Z.of_nat (length system_tokens) + 200)%Z)).

(** The loop of [prepare_segments_for_api], from position [i] on: the
    first text the tokenizer refuses ends it with the exception. *)
Fixpoint segments_from (enc : str -> outcome (list N)) (overhead : Z)
    (max_tokens_for_request : Z) (i : nat) (paragraphs : list str)
  : outcome (list Segment) :=
  match paragraphs with
  | [] => Returned []
  | para_text :: rest =>
      bind (enc para_text) (fun tokens =>
      let num_tokens := Z.of_nat (length tokens) in
      let segment :=
        if (num_tokens + overhead >? max_tokens_for_request)%Z
        then {| id := i; text := para_text; is_long := true |}
        else {| id := i; text := para_text; is_long := false |} in
      bind (segments_from enc overhead max_tokens_for_request (S i) rest)
        (fun segments => Returned (segment :: segments)))
  end.

Definition prepare_segments_for_api (paragraphs : list str) (model_name : str)
    (max_tokens_for_request : Z) : outcome (list Segment) :=
  bind (encoding_for_model X model_name) (fun enc =>
  bind (prompt_overhead enc) (fun overhead =>
  segments_from enc overhead max_tokens_for_request 0 paragraphs)).

(** [USER_PROMPT_TEMPLATE.format(paragraph_text=...)]: the template has
    one replacement field and no other brace. *)
Definition format_paragraph_text (paragraph_text : str) : str :=
  replace PLACEHOLDER paragraph_text USER_PROMPT_TEMPLATE.

Definition degraded_reply (paragraph_text diagnostic : str) : json :=
  JObj [ (lit "original", JStr paragraph_text);
         (lit "corrected", JStr paragraph_text);
         (lit "feedback", JArr [JStr diagnostic]) ].

(** [json.loads(response.choices[0].message.content)] *)
Definition loads_content (content : option str) : outcome json :=
  match content with
  | Some body => json_loads X body
  | None =>
      Raised {| cls := OtherException;
                message := lit "the JSON object must be str, bytes or bytearray, not NoneType" |}
  end.

(** The world after one call to the service. *)
Definition after_call (w : World) : World :=
  {| calls := S (calls w);
     now := (now w + call_duration X (calls w))%Z |}.

Definition request_for (paragraph_text : str) : request :=
  {| req_model := OPENAI_MODEL cfg;
     req_system := SYSTEM_PROMPT;
     req_user := format_paragraph_text paragraph_text |}.

(** The [try] block of [get_proofread_data]: one call to the service,
    and the decoding of its reply. *)
Definition try_block (paragraph_text : str) (w : World)
  : outcome json * World :=
  let response :=
    chat_completions_create X (calls w) (request_for paragraph_text) in
  (bind response loads_content, after_call w).

(** The body of [get_proofread_data], under the decorator: the [try]
    block and its two handlers. *)
Definition get_proofread_data_body (paragraph_text : str) (w : World)
  : outcome json * World :=
  match try_block paragraph_text w with
  | (Returned value, w') => (Returned value, w')
  | (Raised e, w') =>
      if is_class JSONDecodeError e
      then (Returned (degraded_reply paragraph_text
                        (lit "JSON Error: " ++ message e)), w')
      else (Returned (degraded_reply paragraph_text
                        (lit "API Error: " ++ message e)), w')
  end.

(** The exceptions the decorator is told to retry on. *)
Definition retried (e : exn) : bool :=
  is_class RateLimitError e || is_class APIConnectionError e
  || is_class APITimeoutError e.

(** [backoff.expo]: the wait before retry [n], in milliseconds. *)
Definition expo (n : nat) : Z := (1000 * 2 ^ Z.of_nat n)%Z.

Definition sleep (ms : Z) (w : World) : World :=
  {| calls := calls w; now := (now w + ms)%Z |}.

(** [backoff.on_exception(backoff.expo, ..., max_time=...)] around
    [target].  The time elapsed is read before each try; a retried
    exception is raised again once the time elapsed has reached
    [max_time], any other exception is raised at once, and otherwise the
    loop sleeps for the jittered wait, cut to the time that is left.
    [fuel] bounds the number of tries; [None] is a loop that has not
    finished within it. *)
Fixpoint on_exception {A} (fuel : nat) (max_time : Z)
    (target : World -> outcome A * World) (start : Z) (tries : nat)
    (w : World) : option (outcome A * World) :=
  match fuel with
  | O => None
  | S fuel' =>
      let elapsed := (now w - start)%Z in
      match target w with
      | (Returned ret, w') => Some (Returned ret, w')
      | (Raised e, w') =>
          if retried e then
            if (elapsed >=? max_time)%Z then Some (Raised e, w')
            else
              let seconds :=
                Z.min (jitter X tries (expo tries)) (max_time - elapsed) in
              on_exception fuel' max_time target start (S tries)
                (sleep seconds w')
          else Some (Raised e, w')
      end
  end.

Definition get_proofread_data (fuel : nat) (paragraph_text : str) (w : World)
  : option (outcome json * World) :=
  on_exception fuel (1000 * MAX_RETRY_TIME_SECONDS cfg)
    (get_proofread_data_body paragraph_text) (now w) 0 w.

Definition degraded_edit (paragraph_text diagnostic : str) : Edit :=
  {| original := paragraph_text;
     corrected := paragraph_text;
     feedback := [diagnostic] |}.

(** One turn of the loop of [process_segments]: the [Edit] it appends. *)
Definition process_segment (fuel : nat) (segment_data : Segment) (w : World)
  : option (Edit * World) :=
  let paragraph_text := text segment_data in
  match get_proofread_data fuel paragraph_text w with
  | None => None
  | Some (raw_json_response, w') =>
      match bind raw_json_response (model_validate X) with
      | Returned validated_data => Some (validated_data, w')
      | Raised e =>
          if is_class ValidationError e
          then Some (degraded_edit paragraph_text
                       (lit "Validation Error: " ++ message e), w')
          else Some (degraded_edit paragraph_text
                       (lit "Processing Error: " ++ message e), w')
      end
  end.

Fixpoint process_segments (fuel : nat) (segments_to_process : list Segment)
    (w : World) : option (list Edit * World) :=
  match segments_to_process with
  | [] => Some ([], w)
  | segment_data :: rest =>
      match process_segment fuel segment_data w with
      | None => None
      | Some (edit, w') =>
          match process_segments fuel rest w' with
          | None => None
          | Some (results, w'') => Some (edit :: results, w'')
          end
      end
  end.

End Pipeline.

(* ------------------------------------------------------------------ *)
(** ** The report document *)

(** What the program hands to the document library: headings and
    paragraphs of runs. *)
Record run := {
  run_text : str;
  bold : bool;
  highlight_color : option nat
}.

Inductive block :=
| Heading (heading_text : str) (level : nat)
| Paragraph (runs : list run) (style : option str).

Definition plain (t : str) : run :=
  {| run_text := t; bold := false; highlight_color := None |}.

(** The paragraph that [add_paragraph(text, style)] asks the library
    for: the library adds a run only for a text that is not empty.
    Whether the library takes the paragraph is said by [accepted], and
    [hand_over] is where a refusal ends the building of the report. *)
Definition add_paragraph (t : str) (style : option str) : block :=
  Paragraph (if truthy t then [plain t] else []) style.

(** The code points an XML text may hold: tab, line feed, carriage
    return, and what is from the space on, without the surrogates and the
    two last code points of the basic plane. *)
Definition xml_char (c : char) : bool :=
  ((c =? 9) || (c =? 10) || (c =? 13)
   || ((32 <=? c) && (c <? 55296))
   || ((57344 <=? c) && (c <=? 65533))
   || ((65536 <=? c) && (c <=? 1114111)))%N.

(** The texts the document library takes: it raises a [ValueError] for
    any other. *)
Definition xml_compatible (t : str) : bool := forallb xml_char t.

(** The exception of the library for a text it does not take.  (The
    message is the one for a control character; for a lone surrogate the
    library words it otherwise.) *)
Definition XMLValueError : exn :=
  {| cls := OtherException;
     message := lit "All strings must be XML compatible: Unicode or ASCII, no NULL bytes or control characters" |}.

Definition texts_of (b : block) : list str :=
  match b with
  | Heading t _ => [t]
  | Paragraph rs _ => map run_text rs
  end.

Definition accepted (b : block) : bool := forallb xml_compatible (texts_of b).

(** The blocks are added to the document one after the other; the first
    one the library refuses raises, and nothing is added after it. *)
Fixpoint hand_over (bs : list block) : list block * option exn :=
  match bs with
  | [] => ([], None)
  | b :: rest =>
      if accepted b
      then let (added, r) := hand_over rest in (b :: added, r)
      else ([], Some XMLValueError)
  end.

(** [edit.original != edit.corrected] *)
Definition differs (edit : Edit) : bool :=
  negb (PyStr.eqb (original edit) (corrected edit)).

Definition total_paragraphs (proofread_results : list Edit) : nat :=
  length proofread_results.

(** [sum(1 for edit in proofread_results if edit.original != edit.corrected)] *)
Definition corrected_paragraphs (proofread_results : list Edit) : nat :=
  list_sum (map (fun _ => 1) (filter differs proofread_results)).

Definition summary_text (proofread_results : list Edit) : str :=
  lit "Processed " ++ of_nat (total_paragraphs proofread_results)
  ++ lit " paragraphs. " ++ of_nat (corrected_paragraphs proofread_results)
  ++ lit " paragraphs had corrections.".

Definition summary_block (proofread_results : list Edit) : block :=
  Paragraph
    [ {| run_text := lit "Summary: "; bold := true; highlight_color := None |};
      plain (summary_text proofread_results) ]
    None.

(** [item[2:].strip() if item.startswith("- ") else item] *)
Definition clean_item (item : str) : str :=
  if startswith (lit "- ") item then strip (slice_from 2 item) else item.

(** The style of the bullets of the report. *)
Definition List_Bullet : option str := Some (lit "List Bullet").

Definition feedback_blocks (fb : list str) : list block :=
  match fb with
  | [] => [add_paragraph (lit "No feedback provided.") None]
  | _ :: _ =>
      let feedback_items :=
        map strip (filter (fun item => truthy (strip item)) fb) in
      match feedback_items with
      | [] => [add_paragraph (lit "No specific feedback provided.") None]
      | _ :: _ =>
          flat_map (fun item =>
            if truthy (clean_item item)
            then [add_paragraph (clean_item item) List_Bullet]
            else []) feedback_items
      end
  end.

Definition heading_of (i : nat) (what : str) : block :=
  Heading (lit "Paragraph " ++ of_nat (i + 1) ++ lit ": " ++ what) 2.

Definition IndexError : exn :=
  {| cls := OtherException; message := lit "list index out of range" |}.

(** One turn of the loop of [create_output_document]: the blocks added,
    and the exception that ends the loop, when the library refuses a text
    or when [runs[0]] does not exist. *)
Definition edit_blocks (i : nat) (edit_item : Edit)
  : list block * option exn :=
  let before :=
    [ heading_of i (lit "Original");
      add_paragraph (original edit_item) (Some (lit "Quote"));
      heading_of i (lit "Corrected") ] in
  let after :=
    heading_of i (lit "Feedback")
    :: feedback_blocks (feedback edit_item)
    ++ [add_paragraph (times (lit "-") 30) None] in
  if differs edit_item then
    match truthy (corrected edit_item) with
    | true =>
        hand_over
          (before
           ++ [Paragraph [ {| run_text := corrected edit_item; bold := false;
                              highlight_color := Some 3 |} ] None]
           ++ after)
    | false =>
        match hand_over (before ++ [Paragraph [] None]) with
        | (added, None) => (added, Some IndexError)
        | (added, Some e) => (added, Some e)
        end
    end
  else hand_over (before ++ [add_paragraph (corrected edit_item) None] ++ after).

Fixpoint blocks_from (i : nat) (proofread_results : list Edit)
  : list block * option exn :=
  match proofread_results with
  | [] => ([], None)
  | edit_item :: rest =>
      match edit_blocks i edit_item with
      | (bs, Some e) => (bs, Some e)
      | (bs, None) =>
          let (bs', r) := blocks_from (S i) rest in (bs ++ bs', r)
      end
  end.

(** [create_output_document]: the blocks handed to the document, and the
    exception raised on the way, if any.  The title, the summary and the
    rule under it are fixed words and decimal digits, which the library
    always takes. *)
Definition create_output_document (proofread_results : list Edit)
  : list block * option exn :=
  let (bs, r) := blocks_from 0 proofread_results in
  (Heading (lit "AI Proofreading Report") 0
   :: summary_block proofread_results
   :: add_paragraph (times (lit "=") 50) None
   :: bs, r).

(* ------------------------------------------------------------------ *)
(** ** Concrete services, for the scenarios *)

Module Scenario.

Definition quoted (s : str) : str := dq ++ s ++ dq.

(** The text of a reply object with the three keys. *)
Definition reply_text (o c : str) (fb : list str) : str :=
  lit "{" ++ quoted (lit "original") ++ lit ": " ++ quoted o ++ lit ", "
  ++ quoted (lit "corrected") ++ lit ": " ++ quoted c ++ lit ", "
  ++ quoted (lit "feedback") ++ lit ": ["
  ++ concat (map quoted fb) ++ lit "]}".

Definition reply_value (o c : str) (fb : list str) : json :=
  JObj [ (lit "original", JStr o); (lit "corrected", JStr c);
         (lit "feedback", JArr (map JStr fb)) ].

Definition connection_error : exn :=
  {| cls := APIConnectionError; message := lit "Connection error." |}.

Definition decode_error : exn :=
  {| cls := JSONDecodeError;
     message := lit "Expecting value: line 1 column 1 (char 0)" |}.

(** A service that answers its [k]-th call with the [k]-th entry of
    [script] and with [fallback] after that; a decoder that knows the
    replies of [table]; a tokenizer of one token per code point, which
    knows every model and refuses no text; calls of
    half a second; waits drawn at their upper end. *)
Definition scripted (script : list (outcome (option str)))
    (fallback : outcome (option str)) (table : list (str * json))
  : Externals :=
  {| encoding_for_model := fun _ => Returned (fun s => Returned s);
     chat_completions_create := fun k _ => nth k script fallback;
     call_duration := fun _ => 500%Z;
     json_loads := fun body =>
       match find (fun kv => PyStr.eqb body (fst kv)) table with
       | Some kv => Returned (snd kv)
       | None => Raised decode_error
       end;
     str_ValidationError := fun errors =>
       of_nat (length errors) ++ lit " validation error for Edit";
     jitter := fun _ v => v |}.

Definition para0 : str := lit "The frist paragraph.".
Definition para1 : str := lit "Alredy correct.".
Definition fixed0 : str := lit "The first paragraph.".
Definition note0 : str := lit "Fixed spelling of 'first'.".

Definition entry (o c : str) (fb : list str) : str * json :=
  (reply_text o c fb, reply_value o c fb).

(** The service of the two-paragraph scenario. *)
Definition two_paragraphs : Externals :=
  scripted
    [ Returned (Some (reply_text para0 fixed0 [note0]));
      Returned (Some (reply_text para1 para1 [])) ]
    (Raised connection_error)
    [ entry para0 fixed0 [note0]; entry para1 para1 [] ].

(** A service whose echo of the input is not the input. *)
Definition echo0 : str := lit "The frist paragraf.".

Definition bad_echo : Externals :=
  scripted [ Returned (Some (reply_text echo0 fixed0 [note0])) ]
    (Raised connection_error)
    [ entry echo0 fixed0 [note0] ].

(** A service that cannot be reached three times and then answers. *)
Definition three_failures : Externals :=
  scripted
    [ Raised connection_error; Raised connection_error;
      Raised connection_error;
      Returned (Some (reply_text para0 fixed0 [note0])) ]
    (Returned (Some (reply_text para0 fixed0 [note0])))
    [ entry para0 fixed0 [note0] ].

(** A service that can never be reached. *)
Definition unreachable : Externals :=
  scripted [] (Raised connection_error) [].

(** A service whose reply is not JSON. *)
Definition not_json : Externals :=
  scripted [ Returned (Some (lit "Sure! Here is the corrected text.")) ]
    (Raised connection_error) [].

(** A service whose reply has no [feedback]. *)
Definition no_feedback_text : str :=
  lit "{" ++ quoted (lit "original") ++ lit ": " ++ quoted para0 ++ lit ", "
  ++ quoted (lit "corrected") ++ lit ": " ++ quoted fixed0 ++ lit "}".

Definition no_feedback_value : json :=
  JObj [ (lit "original", JStr para0); (lit "corrected", JStr fixed0) ].

Definition no_feedback : Externals :=
  scripted [ Returned (Some no_feedback_text) ]
    (Raised connection_error)
    [ (no_feedback_text, no_feedback_value) ].

Definition seg0 : Segment := {| id := 0; text := para0; is_long := false |}.

(** A result whose feedback entry comes with a bullet marker and with
    whitespace around it. *)
Definition bulleted : Edit :=
  {| original := para0;
     corrected := fixed0;
     feedback := [lit "  - Fixed spelling of 'first'. "] |}.

End Scenario.

(* ------------------------------------------------------------------ *)
(** ** Predicates of the statements *)

(** A string is blank when it has only whitespace. *)
Definition blank (s : str) : bool := forallb isspace s.

(** A string that does not start with whitespace. *)
Inductive starts_solid : str -> Prop :=
| solid_nil : starts_solid []
| solid_cons c s : isspace c = false -> starts_solid (c :: s).

(** The stored [original] of every unit is the text of the unit. *)
Definition stores_input_text (X : Externals) (cfg : settings) (fuel : nat)
    (segments_to_process : list Segment) (w : World) : Prop :=
  forall results w',
    process_segments X cfg fuel segments_to_process w = Some (results, w') ->
    Forall2 (fun segment_data r => original r = text segment_data)
      segments_to_process results.

(** The client hands a retried exception on to its caller. *)
Definition escalates (X : Externals) (cfg : settings) (fuel : nat)
    (paragraph_text : str) (w : World) : Prop :=
  exists e w',
    get_proofread_data X cfg fuel paragraph_text w = Some (Raised e, w')
    /\ retried e = true.

(* ------------------------------------------------------------------ *)
(** ** The run ([main]) *)

(** The two paths of [config.py]. *)
Record paths := {
  INPUT_DOCX_PATH : str;
  OUTPUT_DOCX_PATH : str
}.

Definition default_paths : paths :=
  {| INPUT_DOCX_PATH := lit "my_draft.docx";
     OUTPUT_DOCX_PATH := lit "proofread_output.docx" |}.

(** How [main] ends: it returns early for want of paragraphs or of
    segments, it gets to the end with the report built (saved or not: a
    failure to save is only printed) and the two numbers of the summary it
    prints, or it raises again the exception it caught. *)
Inductive run_end :=
| NoParagraphs
| NoSegments
| Finished (report : list block) (saved : bool) (corrected_count total : nat)
| Failed (e : exn).

(** [main]: [fs] gives the paragraph texts of the document at a path,
    when there is one, and [can_save] tells whether saving the report
    works. *)
Definition main (X : Externals) (cfg : settings) (p : paths) (fuel : nat)
    (fs : str -> option (list str)) (can_save : bool) (w : World)
  : option (run_end * World) :=
  match load_paragraphs (INPUT_DOCX_PATH p) (fs (INPUT_DOCX_PATH p)) with
  | Raised e => Some (Failed e, w)
  | Returned [] => Some (NoParagraphs, w)
  | Returned raw_paragraphs =>
      match prepare_segments_for_api X raw_paragraphs (OPENAI_MODEL cfg)
              (MAX_TOKENS_PER_API_REQUEST cfg) with
      | Raised e => Some (Failed e, w)
      | Returned [] => Some (NoSegments, w)
      | Returned segments_to_process =>
          match process_segments X cfg fuel segments_to_process w with
          | None => None
          | Some (proofread_results, w') =>
              match create_output_document proofread_results with
              | (_, Some e) => Some (Failed e, w')
              | (report, None) =>
                  Some (Finished report can_save
                          (corrected_paragraphs proofread_results)
                          (total_paragraphs proofread_results), w')
              end
          end
      end
  end.

(* ------------------------------------------------------------------ *)
(** ** Loading the configuration ([config.py]) *)

Section Environment.

(** [float] and [int] on a string are the interpreter's. *)
Context (float : Type) (py_float : str -> outcome float)
        (py_int : str -> outcome Z).

Record module_config := {
  OPENAI_API_KEY : str;
  TEMPERATURE : float;
  the_settings : settings;
  the_paths : paths
}.

(** [os.getenv(key, default)] *)
Definition getenv (env : str -> option str) (key default : str) : str :=
  match env key with
  | Some value => value
  | None => default
  end.

Definition key_not_set : exn :=
  {| cls := OtherException;
     message := lit "OPENAI_API_KEY environment variable not set. Please set it in your .env file or environment variables." |}.

(** The body of the module, in the order of its statements; [env] is the
    process environment once the [.env] file is loaded. *)
Definition load_config (env : str -> option str) : outcome module_config :=
  let api_key := env (lit "OPENAI_API_KEY") in
  let model := getenv env (lit "OPENAI_MODEL") (lit "gpt-4o-mini") in
  bind (py_float (getenv env (lit "TEMPERATURE") (lit "0.0")))
    (fun temperature =>
  bind (py_int (getenv env (lit "MAX_TOKENS_PER_API_REQUEST") (lit "4000")))
    (fun max_tokens =>
  let input := getenv env (lit "INPUT_DOCX_PATH") (lit "my_draft.docx") in
  let output :=
    getenv env (lit "OUTPUT_DOCX_PATH") (lit "proofread_output.docx") in
  bind (py_int (getenv env (lit "MAX_RETRY_TIME_SECONDS") (lit "60")))
    (fun max_retry =>
  match api_key with
  | None | Some [] => Raised key_not_set
  | Some key =>
      Returned
        {| OPENAI_API_KEY := key;
           TEMPERATURE := temperature;
           the_settings :=
             {| OPENAI_MODEL := model;
                MAX_TOKENS_PER_API_REQUEST := max_tokens;
                MAX_RETRY_TIME_SECONDS := max_retry |};
           the_paths :=
             {| INPUT_DOCX_PATH := input; OUTPUT_DOCX_PATH := output |} |}
  end))).

End Environment.

(* ------------------------------------------------------------------ *)
(** ** Reading a report and a run *)

(** A paragraph whose first run is highlighted. *)
Definition highlighted (b : block) : bool :=
  match b with
  | Paragraph (r :: _) _ =>
      match highlight_color r with Some _ => true | None => false end
  | _ => false
  end.

(** The headings of a report, with their levels. *)
Definition headings (doc : list block) : list (str * nat) :=
  flat_map (fun b =>
    match b with
    | Heading t l => [(t, l)]
    | Paragraph _ _ => []
    end) doc.

(** The runs of the paragraphs of a report that are styled as quotes. *)
Definition quotes (doc : list block) : list (list run) :=
  flat_map (fun b =>
    match b with
    | Paragraph rs (Some st) =>
        if PyStr.eqb st (lit "Quote") then [rs] else []
    | _ => []
    end) doc.

(** The three headings of the record at position [i]. *)
Definition record_headings (i : nat) : list (str * nat) :=
  [ (lit "Paragraph " ++ of_nat (i + 1) ++ lit ": Original", 2);
    (lit "Paragraph " ++ of_nat (i + 1) ++ lit ": Corrected", 2);
    (lit "Paragraph " ++ of_nat (i + 1) ++ lit ": Feedback", 2) ].

(** A segment moved [k] positions on. *)
Definition shifted (k : nat) (s : Segment) : Segment :=
  {| id := k + id s; text := text s; is_long := is_long s |}.

(** The time spent in the calls numbered from [k] on, [n] of them. *)
Definition time_in_calls (X : Externals) (k n : nat) : Z :=
  fold_right Z.add 0%Z (map (call_duration X) (seq k n)).

(* ------------------------------------------------------------------ *)
(** ** More predicates of the statements *)

(** [needle in s] *)
Fixpoint contains (needle s : str) : bool :=
  startswith needle s
  || match s with
     | [] => false
     | _ :: s' => contains needle s'
     end.




(** The segmenter gives one unit per paragraph. *)
Definition one_unit_per_paragraph (X : Externals) (paragraphs : list str)
    (model_name : str) (budget : Z) : Prop :=
  exists segs,
    prepare_segments_for_api X paragraphs model_name budget = Returned segs
    /\ length segs = length paragraphs.


Module Cases.

(** The text of a special token of the tokenizer, and a paragraph that
    holds it. *)
Definition special : str := lit "<|endoftext|>".

Definition special_paragraph : str :=
  lit "The token <|endoftext|> ends a text.".

(** The start of the message of the tokenizer for such a text. *)
Definition special_token_error : exn :=
  {| cls := OtherException;
     message := lit "Encountered text corresponding to disallowed special token '<|endoftext|>'." |}.

Definition unknown_model_error : exn :=
  {| cls := OtherException;
     message := lit "Could not automatically map the model to a tokeniser." |}.

(** A tokenizer that knows one model and refuses the texts that hold the
    special token, with the service of the two-paragraph scenario. *)
Definition strict : Externals :=
  {| encoding_for_model := fun model_name =>
       if PyStr.eqb model_name (lit "gpt-4o-mini")
       then Returned (fun s =>
              if contains special s then Raised special_token_error
              else Returned s)
       else Raised unknown_model_error;
     chat_completions_create :=
       chat_completions_create Scenario.two_paragraphs;
     call_duration := call_duration Scenario.two_paragraphs;
     json_loads := json_loads Scenario.two_paragraphs;
     str_ValidationError := str_ValidationError Scenario.two_paragraphs;
     jitter := jitter Scenario.two_paragraphs |}.

(** A result with a feedback entry that has two bullet markers, and one
    with a marker the program does not know. *)
Definition nested : Edit :=
  {| original := Scenario.para0;
     corrected := Scenario.fixed0;
     feedback := [lit "- - Fixed spelling."; lit "* Fixed spelling."] |}.

(** A result whose corrected text holds a control character. *)
Definition with_control : Edit :=
  {| original := Scenario.para0;
     corrected := lit "The first" ++ [1%N] ++ lit "paragraph.";
     feedback := [] |}.

(** A service whose reply has no content. *)
Definition no_content : Externals :=
  Scenario.scripted [ Returned None ]
    (Raised Scenario.connection_error) [].

(** A service that answers a paragraph with an empty correction. *)
Definition emptied : Externals :=
  Scenario.scripted
    [ Returned (Some (Scenario.reply_text Scenario.para0 (lit "") [])) ]
    (Raised Scenario.connection_error)
    [ Scenario.entry Scenario.para0 (lit "") [] ].

(** The first unit of the scenario, marked as oversized and renumbered. *)
Definition seg0_long : Segment :=
  {| id := 7; text := Scenario.para0; is_long := true |}.

(** A document with a blank paragraph between the two of the scenario. *)
Definition draft (path : str) : option (list str) :=
  if PyStr.eqb path (lit "my_draft.docx")
  then Some [ lit "  The frist paragraph. "; lit "   "; Scenario.para1 ]
  else None.

(** A document with nothing but blank paragraphs. *)
Definition blank_draft (path : str) : option (list str) :=
  if PyStr.eqb path (lit "my_draft.docx")
  then Some [ lit ""; lit "   " ]
  else None.

End Cases.

(* ------------------------------------------------------------------ *)
(** ** Strings: equality, prefixes and trimming *)

Lemma eqb_eq (a b : str) : PyStr.eqb a b = true <-> a = b.
Proof.
  revert b; induction a as [|x a IH]; intros [|y b]; simpl;
    try (split; [discriminate | discriminate]); try tauto.
  unfold char_eqb. rewrite andb_true_iff, N.eqb_eq, IH.
  split; [intros [-> ->]; reflexivity | intros [= -> ->]; auto].
Qed.

Lemma eqb_refl (a : str) : PyStr.eqb a a = true.
Proof. apply eqb_eq; reflexivity. Qed.

Lemma differs_iff (edit : Edit) :
  differs edit = true <-> original edit <> corrected edit.
Proof.
  unfold differs. rewrite negb_true_iff.
  destruct (PyStr.eqb (original edit) (corrected edit)) eqn:E.
  - apply eqb_eq in E. split; [discriminate | contradiction].
  - split; [|reflexivity]. intros _ H. apply eqb_eq in H. congruence.
Qed.


Lemma startswith_split (p s : str) :
  startswith p s = true -> s = p ++ skipn (length p) s.
Proof.
  revert s; induction p as [|x p IH]; intros [|y s]; simpl;
    try reflexivity; try discriminate.
  unfold char_eqb. rewrite andb_true_iff, N.eqb_eq.
  intros [-> H]. f_equal. apply IH, H.
Qed.

Lemma lstrip_solid (s : str) : starts_solid (lstrip s).
Proof.
  induction s as [|c s IH]; simpl; [constructor|].
  destruct (isspace c) eqn:E; [exact IH | constructor; exact E].
Qed.

Lemma lstrip_of_solid (s : str) : starts_solid s -> lstrip s = s.
Proof. intros [|c t E]; simpl; [|rewrite E]; reflexivity. Qed.

Lemma rstrip_cons_solid (c : char) (s : str) :
  isspace c = false -> rstrip (c :: s) = c :: rstrip s.
Proof. intros E. simpl. rewrite E. destruct (rstrip s); reflexivity. Qed.

Lemma rstrip_solid (s : str) : starts_solid s -> starts_solid (rstrip s).
Proof.
  intros [|c t E]; [constructor|].
  rewrite rstrip_cons_solid by exact E. constructor; exact E.
Qed.

Lemma rstrip_idem (s : str) : rstrip (rstrip s) = rstrip s.
Proof.
  induction s as [|c s IH]; [reflexivity|].
  simpl. destruct (rstrip s) as [|x r] eqn:R.
  - destruct (isspace c) eqn:E; simpl; [|rewrite E]; reflexivity.
  - change (rstrip (c :: x :: r)) with
      (match rstrip (x :: r) with
       | [] => if isspace c then [] else [c]
       | y :: r' => c :: y :: r'
       end).
    rewrite IH. reflexivity.
Qed.

Lemma rstrip_nil_iff (s : str) : rstrip s = [] <-> blank s = true.
Proof.
  induction s as [|c s IH]; simpl; [tauto|].
  rewrite andb_true_iff, <- IH.
  destruct (rstrip s) as [|x r]; destruct (isspace c); split;
    try discriminate; try tauto; intros [? ?]; discriminate.
Qed.

Lemma lstrip_nil_iff (s : str) : lstrip s = [] <-> blank s = true.
Proof.
  induction s as [|c s IH]; simpl; [tauto|].
  destruct (isspace c); simpl; [exact IH | split; discriminate].
Qed.

Lemma strip_idem (s : str) : strip (strip s) = strip s.
Proof.
  unfold strip.
  rewrite (lstrip_of_solid (rstrip_solid (lstrip_solid s))).
  apply rstrip_idem.
Qed.

Lemma strip_nil_iff (s : str) : strip s = [] <-> blank s = true.
Proof.
  unfold strip. rewrite <- lstrip_nil_iff. split.
  - intros H. destruct (lstrip_solid s) as [|c t E]; [reflexivity|].
    rewrite rstrip_cons_solid in H by exact E. discriminate.
  - intros ->. reflexivity.
Qed.

Lemma truthy_strip (s : str) : truthy (strip s) = negb (blank s).
Proof.
  destruct (blank s) eqn:B.
  - apply strip_nil_iff in B. rewrite B. reflexivity.
  - destruct (strip s) eqn:E; [|reflexivity].
    apply strip_nil_iff in E. congruence.
Qed.

Lemma truthy_true (s : str) : truthy s = true <-> s <> [].
Proof. destruct s; simpl; split; congruence. Qed.

(* ------------------------------------------------------------------ *)
(** ** Loading *)

Lemma strip_kept (texts : list str) :
  Forall (fun p => p <> [] /\ strip p = p)
    (map strip (filter (fun t => truthy (strip t)) texts)).
Proof.
  induction texts as [|t texts IH]; simpl; [constructor|].
  destruct (truthy (strip t)) eqn:T; [|exact IH].
  simpl. constructor; [|exact IH].
  split; [apply truthy_true, T | apply strip_idem].
Qed.

(** C10: every paragraph the loader returns is non-empty and equal to its
    own trim; the paragraphs that are empty or have only whitespace are
    dropped, and the others keep their relative order: the result is the
    list of the non-blank texts of the document, each trimmed. *)
Theorem load_paragraphs_trimmed (docx_path : str) (texts : list str) :
  exists paragraphs,
    load_paragraphs docx_path (Some texts) = Returned paragraphs
    /\ Forall (fun p => p <> [] /\ strip p = p) paragraphs
    /\ paragraphs = map strip (filter (fun t => negb (blank t)) texts).
Proof.
  eexists. split; [reflexivity|]. split; [apply strip_kept|].
  f_equal. apply filter_ext. intros t. apply truthy_strip.
Qed.

(* ------------------------------------------------------------------ *)
(** ** The report *)




Lemma hand_over_all (bs : list block) :
  snd (hand_over bs) = None -> fst (hand_over bs) = bs.
Proof.
  induction bs as [|b0 bs IH]; cbn [hand_over]; [reflexivity|].
  destruct (accepted b0); [|discriminate].
  destruct (hand_over bs) as [added r]. cbn [fst snd] in *.
  intros H. rewrite (IH H). reflexivity.
Qed.






(* ------------------------------------------------------------------ *)
(** ** Segments *)

Section Segments.

Context (enc : str -> outcome (list N)) (overhead budget : Z).

Lemma segments_from_returned (paragraphs : list str) :
  forall i segs,
    segments_from enc overhead budget i paragraphs = Returned segs ->
    length segs = length paragraphs
    /\ map id segs = seq i (length paragraphs)
    /\ map text segs = paragraphs
    /\ Forall (fun s =>
         exists tokens,
           enc (text s) = Returned tokens
           /\ (is_long s = true
               <-> (overhead + Z.of_nat (length tokens) > budget)%Z))
         segs.
Proof.
  induction paragraphs as [|p ps IH]; intros i segs; cbn [segments_from].
  - intros [= <-]. repeat split. constructor.
  - destruct (enc p) as [tokens|e] eqn:E; cbn [bind]; [|discriminate].
    destruct (segments_from enc overhead budget (S i) ps) as [rest|e] eqn:R;
      cbn [bind]; [|discriminate].
    intros [= <-].
    destruct (IH (S i) rest R) as [Hl [Hi [Ht Hf]]].
    cbn [length map seq].
    split; [congruence|].
    split; [f_equal; [destruct (_ >? _)%Z; reflexivity | exact Hi]|].
    split; [f_equal; [destruct (_ >? _)%Z; reflexivity | exact Ht]|].
    constructor; [|exact Hf].
    exists tokens.
    destruct (_ >? _)%Z eqn:G; cbn [text is_long]; split; try exact E.
    + apply Z.gtb_gt in G. split; [intros _; lia | reflexivity].
    + split; [discriminate|]. intros H.
      assert (G' : (Z.of_nat (length tokens) + overhead >? budget)%Z = true)
        by (apply Z.gtb_gt; lia).
      congruence.
Qed.

Lemma segments_from_accepted (paragraphs : list str) :
  (forall p, In p paragraphs -> exists tokens, enc p = Returned tokens) ->
  forall i, exists segs,
    segments_from enc overhead budget i paragraphs = Returned segs.
Proof.
  induction paragraphs as [|p ps IH]; intros Hacc i; cbn [segments_from].
  - eexists. reflexivity.
  - destruct (Hacc p (or_introl eq_refl)) as [tokens ->]. cbn [bind].
    destruct (IH (fun q Hq => Hacc q (or_intror Hq)) (S i)) as [rest ->].
    cbn [bind]. eexists. reflexivity.
Qed.

End Segments.

(** A paragraph that holds the text of a special token makes the
    segmenter raise: no unit is given. *)
Lemma segmenter_refuses_special_token :
  ~ one_unit_per_paragraph Cases.strict [Cases.special_paragraph]
      (lit "gpt-4o-mini") 4000.
Proof.
  intros [segs [H _]]. vm_compute in H. discriminate H.
Qed.

(** C5, amended: for a model the tokenizer knows and paragraphs it takes,
    the segmenter emits one unit per paragraph, with the 0-based position
    as id and the text unchanged; a unit is marked oversized exactly when
    the token count of the template with its slot empty, plus that of the
    system prompt, plus 200, plus that of the paragraph exceeds the
    budget; no unit is dropped, oversized or not. *)
Theorem prepare_segments_one_per_paragraph (X : Externals)
    (paragraphs : list str) (model_name : str) (budget : Z)
    (enc : str -> outcome (list N)) (tokens : str -> list N) :
  let empty_slot := replace PLACEHOLDER (lit "") USER_PROMPT_TEMPLATE in
  let count := fun s : str => Z.of_nat (length (tokens s)) in
  encoding_for_model X model_name = Returned enc ->
  (forall s, In s (empty_slot :: SYSTEM_PROMPT :: paragraphs) ->
             enc s = Returned (tokens s)) ->
  exists segs,
    prepare_segments_for_api X paragraphs model_name budget = Returned segs
    /\ length segs = length paragraphs
    /\ map id segs = seq 0 (length paragraphs)
    /\ map text segs = paragraphs
    /\ Forall (fun s =>
         is_long s = true
         <-> (count empty_slot + count SYSTEM_PROMPT + 200 + count (text s)
              > budget)%Z) segs
    /\ empty_slot ++ PLACEHOLDER = USER_PROMPT_TEMPLATE.
Proof.
  cbv zeta. intros Henc Htok.
  unfold prepare_segments_for_api, prompt_overhead.
  rewrite Henc. cbn [bind].
  rewrite (Htok _ (or_introl eq_refl)). cbn [bind].
  rewrite (Htok _ (or_intror (or_introl eq_refl))). cbn [bind].
  match goal with
  | |- context [segments_from enc ?ov budget 0 paragraphs] =>
      set (overhead := ov)
  end.
  destruct (segments_from_accepted enc overhead budget paragraphs) with (i := 0)
    as [segs Hsegs].
  { intros p Hp. exists (tokens p). apply Htok. right. right. exact Hp. }
  exists segs. split; [exact Hsegs|].
  destruct (segments_from_returned enc overhead budget paragraphs 0 Hsegs)
    as [Hl [Hi [Ht Hf]]].
  split; [exact Hl|]. split; [exact Hi|]. split; [exact Ht|].
  split; [|vm_compute; reflexivity].
  apply Forall_forall. intros s Hs.
  rewrite Forall_forall in Hf. destruct (Hf s Hs) as [toks [Htoks Hiff]].
  assert (Hin : In (text s) paragraphs)
    by (rewrite <- Ht; apply in_map; exact Hs).
  rewrite (Htok (text s) (or_intror (or_intror Hin))) in Htoks.
  injection Htoks as <-.
  rewrite Hiff. unfold overhead. lia.
Qed.

Lemma prepare_segments_one_per_paragraph_witness :
  exists segs,
    prepare_segments_for_api Scenario.two_paragraphs
      [Scenario.para0; Scenario.para1] (lit "gpt-4o-mini") 4000
    = Returned segs
    /\ length segs = 2
    /\ map id segs = [0; 1]
    /\ map text segs = [Scenario.para0; Scenario.para1]
    /\ Forall (fun s =>
         is_long s = true
         <-> (Z.of_nat
                (length (replace PLACEHOLDER (lit "") USER_PROMPT_TEMPLATE))
              + Z.of_nat (length SYSTEM_PROMPT) + 200
              + Z.of_nat (length (text s)) > 4000)%Z) segs
    /\ replace PLACEHOLDER (lit "") USER_PROMPT_TEMPLATE ++ PLACEHOLDER
       = USER_PROMPT_TEMPLATE.
Proof.
  apply (@prepare_segments_one_per_paragraph Scenario.two_paragraphs
           [Scenario.para0; Scenario.para1] (lit "gpt-4o-mini") 4000
           (fun s => Returned s) (fun s => s)).
  - reflexivity.
  - intros s _. reflexivity.
Defined.

(* ------------------------------------------------------------------ *)
(** ** The client *)


Lemma body_returns (X : Externals) (cfg : settings) (paragraph_text : str)
    (w : World) :
  exists raw,
    get_proofread_data_body X cfg paragraph_text w
    = (Returned raw, after_call X w).
Proof.
  unfold get_proofread_data_body, try_block.
  destruct (bind _ _) as [value|e]; [eexists; reflexivity|].
  destruct (is_class JSONDecodeError e); eexists; reflexivity.
Qed.

Lemma on_exception_returned (X : Externals) {A} (fuel : nat) (max_time : Z)
    (target : World -> outcome A * World) (start : Z) (tries : nat)
    (w w' : World) (ret : A) :
  target w = (Returned ret, w') ->
  on_exception X (S fuel) max_time target start tries w
  = Some (Returned ret, w').
Proof. intros H. simpl. rewrite H. reflexivity. Qed.

(** The decorator never sees an exception: its first try returns. *)
Lemma get_proofread_data_once (X : Externals) (cfg : settings) (fuel : nat)
    (paragraph_text : str) (w : World) :
  get_proofread_data X cfg (S fuel) paragraph_text w
  = Some (get_proofread_data_body X cfg paragraph_text w).
Proof.
  destruct (body_returns X cfg paragraph_text w) as [raw H].
  unfold get_proofread_data. rewrite H.
  apply on_exception_returned. exact H.
Qed.

(** Around the [try] block alone the decorator does retry: three
    connection failures and then an answer give the answer. *)
Example decorator_retries_try_block :
  on_exception Scenario.three_failures 10 60000
    (try_block Scenario.three_failures defaults Scenario.para0)
    0 0 initial_world
  = Some (Returned
            (Scenario.reply_value Scenario.para0 Scenario.fixed0
               [Scenario.note0]),
          {| calls := 4; now := 9000 |}).
Proof. vm_compute. reflexivity. Qed.

(** Around the [try] block alone the decorator gives up on a service
    that can never be reached, and raises the failure. *)
Example decorator_gives_up_try_block :
  exists w',
    on_exception Scenario.unreachable 100 60000
      (try_block Scenario.unreachable defaults Scenario.para0)
      0 0 initial_world
    = Some (Raised Scenario.connection_error, w').
Proof. eexists. vm_compute. reflexivity. Qed.

(** C6: when the reply of the service does not decode as JSON, the client
    makes no further call and returns, without raising, the reply whose
    [original] and [corrected] are the input text and whose [feedback] is
    one entry naming the JSON error. *)
Theorem malformed_json_degraded (X : Externals) (cfg : settings) (fuel : nat)
    (paragraph_text : str) (w : World) (content : option str) (e : exn) :
  chat_completions_create X (calls w) (request_for cfg paragraph_text)
  = Returned content ->
  loads_content X content = Raised e ->
  is_class JSONDecodeError e = true ->
  get_proofread_data X cfg (S fuel) paragraph_text w
  = Some (Returned
            (JObj [ (lit "original", JStr paragraph_text);
                    (lit "corrected", JStr paragraph_text);
                    (lit "feedback",
                     JArr [JStr (lit "JSON Error: " ++ message e)]) ]),
          {| calls := S (calls w);
             now := (now w + call_duration X (calls w))%Z |}).
Proof.
  intros Hcall Hloads Hclass.
  rewrite get_proofread_data_once.
  unfold get_proofread_data_body, try_block.
  rewrite Hcall. cbn [bind]. rewrite Hloads, Hclass. reflexivity.
Qed.

Lemma malformed_json_degraded_witness :
  get_proofread_data Scenario.not_json defaults 1 Scenario.para0 initial_world
  = Some (Returned
            (JObj [ (lit "original", JStr (lit "The frist paragraph."));
                    (lit "corrected", JStr (lit "The frist paragraph."));
                    (lit "feedback",
                     JArr [JStr (lit "JSON Error: Expecting value: line 1 column 1 (char 0)")]) ]),
          {| calls := 1; now := 500 |}).
Proof.
  apply (@malformed_json_degraded Scenario.not_json defaults 0 Scenario.para0
           initial_world
           (Some (lit "Sure! Here is the corrected text."))
           Scenario.decode_error); reflexivity.
Defined.

(* ------------------------------------------------------------------ *)
(** ** Validation *)

Lemma validate_items_ok (field : str) (items : list json) :
  forall index values,
    validate_items field index items = (values, []) ->
    items = map JStr values.
Proof.
  induction items as [|item items IH]; simpl; intros index values H.
  - injection H as <-. reflexivity.
  - destruct (validate_items field (S index) items) as [vs errors] eqn:E.
    destruct item; try discriminate H.
    injection H as <- ->. simpl. f_equal. eapply IH, E.
Qed.

Lemma validate_str_ok (field : str) (v : option json) (value : str) :
  validate_str field v = inl value -> v = Some (JStr value).
Proof.
  destruct v as [[| | | s | |]|]; simpl; intros H; try discriminate H.
  injection H as ->. reflexivity.
Qed.

Lemma validate_str_list_ok (field : str) (v : option json)
    (values : list str) :
  validate_str_list field v = inl values -> v = Some (JArr (map JStr values)).
Proof.
  destruct v as [[| | | | items |]|]; simpl; intros H; try discriminate H.
  destruct (validate_items field 0 items) as [vs [|err errors]] eqn:E;
    try discriminate H.
  injection H as ->. apply validate_items_ok in E. rewrite E. reflexivity.
Qed.

(** A reply is accepted only as an object with the three typed fields,
    which the [Edit] then holds as they are. *)
Lemma model_validate_returned (X : Externals) (raw : json) (edit : Edit) :
  model_validate X raw = Returned edit ->
  exists fields,
    raw = JObj fields
    /\ lookup (lit "original") fields = Some (JStr (original edit))
    /\ lookup (lit "corrected") fields = Some (JStr (corrected edit))
    /\ lookup (lit "feedback") fields
       = Some (JArr (map JStr (feedback edit))).
Proof.
  destruct raw as [| | | | |fields]; try discriminate.
  unfold model_validate.
  destruct (validate_str (lit "original") _) as [o|] eqn:O;
    destruct (validate_str (lit "corrected") _) as [c|] eqn:C;
    destruct (validate_str_list (lit "feedback") _) as [f|] eqn:F;
    try discriminate.
  intros [= <-]. exists fields. cbn [original corrected feedback].
  apply validate_str_ok in O, C. apply validate_str_list_ok in F. auto.
Qed.

Lemma validate_items_strings (field : str) (values : list str) :
  forall index,
    validate_items field index (map JStr values) = (values, []).
Proof.
  induction values as [|v values IH]; intros index; simpl;
    [|rewrite IH]; reflexivity.
Qed.

Lemma model_validate_accepts (X : Externals) (fields : list (str * json))
    (edit : Edit) :
  lookup (lit "original") fields = Some (JStr (original edit)) ->
  lookup (lit "corrected") fields = Some (JStr (corrected edit)) ->
  lookup (lit "feedback") fields = Some (JArr (map JStr (feedback edit))) ->
  model_validate X (JObj fields) = Returned edit.
Proof.
  intros Ho Hc Hf. unfold model_validate. rewrite Ho, Hc, Hf.
  cbn [validate_str validate_str_list].
  rewrite validate_items_strings. destruct edit; reflexivity.
Qed.

Lemma model_validate_raised (X : Externals) (raw : json) (e : exn) :
  model_validate X raw = Raised e -> is_class ValidationError e = true.
Proof.
  destruct raw as [| | | | |fields]; unfold model_validate;
    try (intros [= <-]; reflexivity).
  destruct (validate_str (lit "original") _);
    destruct (validate_str (lit "corrected") _);
    destruct (validate_str_list (lit "feedback") _);
    try discriminate; intros [= <-]; reflexivity.
Qed.

Lemma model_validate_missing_feedback (X : Externals)
    (fields : list (str * json)) :
  lookup (lit "feedback") fields = None ->
  exists e, model_validate X (JObj fields) = Raised e.
Proof.
  intros H. unfold model_validate. rewrite H.
  destruct (validate_str (lit "original") _);
    destruct (validate_str (lit "corrected") _);
    eexists; reflexivity.
Qed.

Lemma model_validate_degraded_reply (X : Externals)
    (paragraph_text diagnostic : str) :
  model_validate X (degraded_reply paragraph_text diagnostic)
  = Returned (degraded_edit paragraph_text diagnostic).
Proof. reflexivity. Qed.

(* ------------------------------------------------------------------ *)
(** ** The loop over the segments *)

Lemma process_segment_total (X : Externals) (cfg : settings) (fuel : nat)
    (segment_data : Segment) (w : World) :
  exists r,
    process_segment X cfg (S fuel) segment_data w = Some (r, after_call X w).
Proof.
  unfold process_segment. rewrite get_proofread_data_once.
  destruct (body_returns X cfg (text segment_data) w) as [raw ->].
  cbn [bind]. destruct (model_validate X raw) as [edit|e];
    [|destruct (is_class ValidationError e)]; eexists; reflexivity.
Qed.

(** C7: when the reply of the service decodes but does not validate as an
    [Edit], the unit is recorded, without an exception leaving the loop,
    as the record whose [original] and [corrected] are the input text and
    whose [feedback] is one entry naming the validation error. *)
Theorem validation_failure_degraded (X : Externals) (cfg : settings)
    (fuel : nat) (segment_data : Segment) (w : World) (body : str)
    (raw : json) (e : exn) :
  chat_completions_create X (calls w) (request_for cfg (text segment_data))
  = Returned (Some body) ->
  json_loads X body = Returned raw ->
  model_validate X raw = Raised e ->
  process_segment X cfg (S fuel) segment_data w
  = Some ({| original := text segment_data;
             corrected := text segment_data;
             feedback := [lit "Validation Error: " ++ message e] |},
          {| calls := S (calls w);
             now := (now w + call_duration X (calls w))%Z |}).
Proof.
  intros Hcall Hloads Hraise.
  unfold process_segment. rewrite get_proofread_data_once.
  unfold get_proofread_data_body, try_block.
  rewrite Hcall. cbn [bind loads_content]. rewrite Hloads.
  cbn [bind]. rewrite Hraise.
  rewrite (model_validate_raised _ _ Hraise). reflexivity.
Qed.

Lemma validation_failure_degraded_witness :
  process_segment Scenario.no_feedback defaults 1 Scenario.seg0 initial_world
  = Some ({| original := lit "The frist paragraph.";
             corrected := lit "The frist paragraph.";
             feedback :=
               [lit "Validation Error: 1 validation error for Edit"] |},
          {| calls := 1; now := 500 |}).
Proof.
  apply (@validation_failure_degraded Scenario.no_feedback defaults 0
           Scenario.seg0 initial_world Scenario.no_feedback_text
           Scenario.no_feedback_value
           {| cls := ValidationError;
              message := lit "1 validation error for Edit" |});
    reflexivity.
Defined.

Lemma process_segments_total (X : Externals) (cfg : settings) (fuel : nat)
    (segments_to_process : list Segment) :
  forall w, exists results w',
    process_segments X cfg (S fuel) segments_to_process w
    = Some (results, w')
    /\ length results = length segments_to_process
    /\ Forall2 (fun segment_data r =>
         exists w0,
           process_segment X cfg (S fuel) segment_data w0
           = Some (r, after_call X w0))
         segments_to_process results.
Proof.
  induction segments_to_process as [|seg segs IH]; intros w.
  - exists [], w. repeat split. constructor.
  - destruct (process_segment_total X cfg fuel seg w) as [r Hr].
    destruct (IH (after_call X w)) as [results [w' [Hrest [Hlen Hall]]]].
    exists (r :: results), w'.
    cbn [process_segments]. rewrite Hr, Hrest.
    split; [reflexivity|]. split; [simpl; congruence|].
    constructor; [exists w; exact Hr | exact Hall].
Qed.

(** C3: the loop gives one record per unit, whatever happens to each
    unit: as many records as units, in the order of the units, the record
    at each position being the one made for the unit at that position. *)
Theorem one_result_per_unit (X : Externals) (cfg : settings) (fuel : nat)
    (segments_to_process : list Segment) (w : World) :
  exists results w',
    process_segments X cfg (S fuel) segments_to_process w
    = Some (results, w')
    /\ length results = length segments_to_process
    /\ Forall2 (fun segment_data r =>
         exists w0,
           process_segment X cfg (S fuel) segment_data w0
           = Some (r, after_call X w0))
         segments_to_process results.
Proof. apply process_segments_total. Qed.

(* ------------------------------------------------------------------ *)
(** ** What is stored as [original] *)

(** The service echoes a text that is not the input, and the echo is
    what is stored. *)
Lemma echo_is_stored :
  ~ stores_input_text Scenario.bad_echo defaults 1 [Scenario.seg0]
      initial_world.
Proof.
  intros H.
  specialize (H [ {| original := Scenario.echo0;
                     corrected := Scenario.fixed0;
                     feedback := [Scenario.note0] |} ]
                {| calls := 1; now := 500 |} eq_refl).
  inversion H as [|seg r segs rs Heq _]; subst.
  discriminate Heq.
Qed.

(** C1, amended: the record stored for a unit is the validated reply of
    the client as it is, so its [original] is the [original] field of
    that reply: the echo of the service when the reply is the decoded
    one, and the input text when the client made the reply itself after
    a failure; when the reply does not validate, the record is made from
    the input text, with one entry naming the validation error. *)
Theorem original_is_reply_original (X : Externals) (cfg : settings)
    (fuel : nat) (segment_data : Segment) (w : World) :
  exists r raw,
    process_segment X cfg (S fuel) segment_data w = Some (r, after_call X w)
    /\ get_proofread_data X cfg (S fuel) (text segment_data) w
       = Some (Returned raw, after_call X w)
    /\ (fst (try_block X cfg (text segment_data) w) = Returned raw
        \/ (exists e diagnostic,
              fst (try_block X cfg (text segment_data) w) = Raised e
              /\ raw = JObj [ (lit "original", JStr (text segment_data));
                              (lit "corrected", JStr (text segment_data));
                              (lit "feedback", JArr [JStr diagnostic]) ]
              /\ r = {| original := text segment_data;
                        corrected := text segment_data;
                        feedback := [diagnostic] |}))
    /\ ((exists fields,
           raw = JObj fields
           /\ lookup (lit "original") fields = Some (JStr (original r))
           /\ model_validate X raw = Returned r)
        \/ (exists e,
              model_validate X raw = Raised e
              /\ r = {| original := text segment_data;
                        corrected := text segment_data;
                        feedback :=
                          [lit "Validation Error: " ++ message e] |})).
Proof.
  unfold process_segment. rewrite get_proofread_data_once.
  unfold get_proofread_data_body, try_block. cbn [fst].
  destruct (bind _ _) as [value|e0].
  - cbn [bind]. destruct (model_validate X value) as [edit|e] eqn:V.
    + exists edit, value. repeat split; [left; reflexivity|]. left.
      destruct (model_validate_returned _ _ V) as [fields [-> [Ho _]]].
      exists fields. auto.
    + rewrite (model_validate_raised _ _ V).
      eexists _, value. repeat split; [left; reflexivity|].
      right. exists e. split; [exact V | reflexivity].
  - destruct (is_class JSONDecodeError e0); cbn [bind];
      rewrite model_validate_degraded_reply;
      eexists _, _; (split; [reflexivity|]); (split; [reflexivity|]);
      (split;
       [ right; eexists e0, _; repeat split
       | left; eexists; repeat split ]).
Qed.

(* ------------------------------------------------------------------ *)
(** ** Failures of the call *)


(** C2, on the code: with a service that fails to connect three times and
    then answers, the client calls once, and the record of the unit is
    the degraded one. *)
Theorem connection_failure_not_retried (fuel : nat) :
  process_segments Scenario.three_failures defaults (S fuel)
    [Scenario.seg0] initial_world
  = Some ([degraded_edit Scenario.para0
             (lit "API Error: Connection error.")],
          {| calls := 1; now := 500 |}).
Proof. reflexivity. Qed.

(** The client returns a reply where the claim has it raise. *)
Lemma exhaustion_not_escalated :
  ~ escalates Scenario.unreachable defaults 100 Scenario.para0 initial_world
  /\ process_segments Scenario.unreachable defaults 100 [Scenario.seg0]
       initial_world
     = Some ([degraded_edit Scenario.para0
                (lit "API Error: Connection error.")],
             {| calls := 1; now := 500 |}).
Proof.
  split; [|reflexivity].
  intros [e [w' [H _]]]. discriminate H.
Qed.




(* ------------------------------------------------------------------ *)
(** ** The summary *)

Lemma sum_of_ones {A} (l : list A) : list_sum (map (fun _ => 1) l) = length l.
Proof. induction l as [|a l IH]; simpl; [|rewrite IH]; reflexivity. Qed.

(** C8: the summary of the report gives the number of results as the
    total and, as the number of corrected units, the number of results
    whose corrected text is not their original text; with the two
    paragraphs of the scenario there are two records, the first changed
    and the second not, and the count of corrected units is one. *)
Theorem summary_counts :
  (forall results : list Edit,
     total_paragraphs results = length results
     /\ corrected_paragraphs results = length (filter differs results)
     /\ (forall edit, differs edit = true <-> original edit <> corrected edit)
     /\ nth_error (fst (create_output_document results)) 1
        = Some (Paragraph
                  [ {| run_text := lit "Summary: "; bold := true;
                       highlight_color := None |};
                    plain (lit "Processed " ++ of_nat (length results)
                           ++ lit " paragraphs. "
                           ++ of_nat (length (filter differs results))
                           ++ lit " paragraphs had corrections.") ]
                  None))
  /\ (forall fuel,
        let X := Scenario.two_paragraphs in
        let r0 := {| original := Scenario.para0;
                     corrected := Scenario.fixed0;
                     feedback := [Scenario.note0] |} in
        let r1 := {| original := Scenario.para1;
                     corrected := Scenario.para1;
                     feedback := [] |} in
        (exists segs,
           prepare_segments_for_api X [Scenario.para0; Scenario.para1]
             (OPENAI_MODEL defaults) (MAX_TOKENS_PER_API_REQUEST defaults)
           = Returned segs
           /\ process_segments X defaults (S fuel) segs initial_world
              = Some ([r0; r1], {| calls := 2; now := 1000 |}))
        /\ differs r0 = true /\ differs r1 = false
        /\ total_paragraphs [r0; r1] = 2
        /\ corrected_paragraphs [r0; r1] = 1
        /\ summary_text [r0; r1]
           = lit "Processed 2 paragraphs. 1 paragraphs had corrections.").
Proof.
  split.
  - intros results.
    assert (C : corrected_paragraphs results
                = length (filter differs results))
      by apply sum_of_ones.
    split; [reflexivity|]. split; [exact C|].
    split; [apply differs_iff|].
    unfold create_output_document.
    destruct (blocks_from 0 results) as [bs r]. cbn [fst nth_error].
    unfold summary_block, summary_text. rewrite C. reflexivity.
  - intros fuel. cbv zeta.
    split; [eexists; split; reflexivity | repeat split].
Qed.

(* ------------------------------------------------------------------ *)
(** ** More on the client *)

(** The client never raises and never tries twice: whatever the service
    does, and whatever the exception under [Exception] that the call or
    the decoding raises, [get_proofread_data] returns a reply after one
    call; the reply is the decoded one, or the object whose [original]
    and [corrected] are the input text and whose [feedback] is the
    message of the exception after "JSON Error: " or "API Error: ". *)
Theorem client_never_raises (X : Externals) (cfg : settings) (fuel : nat)
    (paragraph_text : str) (w : World) :
  exists raw,
    get_proofread_data X cfg (S fuel) paragraph_text w
    = Some (Returned raw,
            {| calls := S (calls w);
               now := (now w + call_duration X (calls w))%Z |})
    /\ (fst (try_block X cfg paragraph_text w) = Returned raw
        \/ exists e prefix,
             fst (try_block X cfg paragraph_text w) = Raised e
             /\ (prefix = lit "JSON Error: " \/ prefix = lit "API Error: ")
             /\ raw = JObj [ (lit "original", JStr paragraph_text);
                             (lit "corrected", JStr paragraph_text);
                             (lit "feedback",
                              JArr [JStr (prefix ++ message e)]) ]).
Proof.
  rewrite get_proofread_data_once.
  unfold get_proofread_data_body, try_block. cbn [fst].
  destruct (bind _ _) as [value|e].
  - exists value. split; [reflexivity | left; reflexivity].
  - destruct (is_class JSONDecodeError e); eexists;
      (split; [reflexivity | right; eexists e, _; repeat split; auto]).
Qed.

(** Any failure of the call or of the decoding that is not a JSON decode
    error, of a retried class or not, is answered after one call by the
    reply whose [original] and [corrected] are the input text and whose
    [feedback] is the message of the failure after the words
    "API Error: ". *)
Theorem api_failure_degraded (X : Externals) (cfg : settings) (fuel : nat)
    (paragraph_text : str) (w : World) (e : exn) :
  fst (try_block X cfg paragraph_text w) = Raised e ->
  is_class JSONDecodeError e = false ->
  get_proofread_data X cfg (S fuel) paragraph_text w
  = Some (Returned
            (JObj [ (lit "original", JStr paragraph_text);
                    (lit "corrected", JStr paragraph_text);
                    (lit "feedback",
                     JArr [JStr (lit "API Error: " ++ message e)]) ]),
          {| calls := S (calls w);
             now := (now w + call_duration X (calls w))%Z |}).
Proof.
  intros Htry Hclass. rewrite get_proofread_data_once.
  unfold get_proofread_data_body.
  destruct (try_block X cfg paragraph_text w) as [r w1] eqn:T.
  assert (Hw : w1 = after_call X w)
    by (unfold try_block in T; injection T as _ <-; reflexivity).
  cbn [fst] in Htry. subst r w1. rewrite Hclass. reflexivity.
Qed.

Lemma api_failure_degraded_witness :
  get_proofread_data Cases.no_content defaults 1 Scenario.para0 initial_world
  = Some (Returned
            (JObj [ (lit "original", JStr (lit "The frist paragraph."));
                    (lit "corrected", JStr (lit "The frist paragraph."));
                    (lit "feedback",
                     JArr [JStr (lit "API Error: the JSON object must be str, bytes or bytearray, not NoneType")]) ]),
          {| calls := 1; now := 500 |}).
Proof.
  apply (@api_failure_degraded Cases.no_content defaults 0 Scenario.para0
           initial_world
           {| cls := OtherException;
              message := lit "the JSON object must be str, bytes or bytearray, not NoneType" |});
    reflexivity.
Defined.

(** The user message of the request is the fixed text of the template
    followed by the paragraph as it is, whatever the paragraph holds; the
    fixed text is the one whose tokens the segmenter counts as overhead. *)
Theorem request_is_prefix_then_paragraph (cfg : settings)
    (paragraph_text : str) :
  req_user (request_for cfg paragraph_text)
  = replace PLACEHOLDER (lit "") USER_PROMPT_TEMPLATE ++ paragraph_text.
Proof.
  unfold request_for, format_paragraph_text. cbn [req_user].
  transitivity (replace PLACEHOLDER (lit "") USER_PROMPT_TEMPLATE
                ++ (paragraph_text ++ [])).
  - vm_compute. reflexivity.
  - f_equal. apply app_nil_r.
Qed.

(* ------------------------------------------------------------------ *)
(** ** More on validation *)

(** [Edit.model_validate] accepts a reply exactly when it is an object
    whose [original] and [corrected] are strings and whose [feedback] is a
    list of strings, and the [Edit] holds these values; any other key of
    the object is ignored. *)
Theorem model_validate_accepts_iff (X : Externals) (raw : json)
    (edit : Edit) :
  model_validate X raw = Returned edit
  <-> exists fields,
        raw = JObj fields
        /\ lookup (lit "original") fields = Some (JStr (original edit))
        /\ lookup (lit "corrected") fields = Some (JStr (corrected edit))
        /\ lookup (lit "feedback") fields
           = Some (JArr (map JStr (feedback edit))).
Proof.
  split.
  - apply model_validate_returned.
  - intros [fields [-> [Ho [Hc Hf]]]].
    apply model_validate_accepts; assumption.
Qed.

(** When the reply of the service decodes to an object with the three
    typed fields, the record of the unit holds exactly these three values,
    after one call. *)
Theorem valid_reply_stored (X : Externals) (cfg : settings) (fuel : nat)
    (segment_data : Segment) (w : World) (body : str)
    (fields : list (str * json)) (edit : Edit) :
  chat_completions_create X (calls w) (request_for cfg (text segment_data))
  = Returned (Some body) ->
  json_loads X body = Returned (JObj fields) ->
  lookup (lit "original") fields = Some (JStr (original edit)) ->
  lookup (lit "corrected") fields = Some (JStr (corrected edit)) ->
  lookup (lit "feedback") fields = Some (JArr (map JStr (feedback edit))) ->
  process_segment X cfg (S fuel) segment_data w
  = Some (edit, after_call X w).
Proof.
  intros Hcall Hloads Ho Hc Hf.
  unfold process_segment. rewrite get_proofread_data_once.
  unfold get_proofread_data_body, try_block.
  rewrite Hcall. cbn [bind loads_content]. rewrite Hloads. cbn [bind].
  rewrite (model_validate_accepts X fields edit Ho Hc Hf). reflexivity.
Qed.

Lemma valid_reply_stored_witness :
  process_segment Scenario.two_paragraphs defaults 1 Scenario.seg0
    initial_world
  = Some ({| original := Scenario.para0; corrected := Scenario.fixed0;
             feedback := [Scenario.note0] |},
          {| calls := 1; now := 500 |}).
Proof.
  apply (@valid_reply_stored Scenario.two_paragraphs defaults 0
           Scenario.seg0 initial_world
           (Scenario.reply_text Scenario.para0 Scenario.fixed0
              [Scenario.note0])
           [ (lit "original", JStr Scenario.para0);
             (lit "corrected", JStr Scenario.fixed0);
             (lit "feedback", JArr [JStr Scenario.note0]) ]
           {| original := Scenario.para0; corrected := Scenario.fixed0;
              feedback := [Scenario.note0] |});
    reflexivity.
Defined.

(* ------------------------------------------------------------------ *)
(** ** More on the loop over the segments *)

Lemma time_in_calls_succ (X : Externals) (k n : nat) :
  time_in_calls X k (S n)
  = (call_duration X k + time_in_calls X (S k) n)%Z.
Proof. reflexivity. Qed.

Lemma process_segments_calls (X : Externals) (cfg : settings) (fuel : nat)
    (segments_to_process : list Segment) :
  forall w, exists results w',
    process_segments X cfg (S fuel) segments_to_process w
    = Some (results, w')
    /\ length results = length segments_to_process
    /\ calls w' = calls w + length segments_to_process
    /\ now w'
       = (now w
          + time_in_calls X (calls w) (length segments_to_process))%Z.
Proof.
  induction segments_to_process as [|seg segs IH]; intros w.
  - exists [], w. split; [reflexivity|]. split; [reflexivity|].
    split; [simpl; lia | unfold time_in_calls; simpl; lia].
  - destruct (process_segment_total X cfg fuel seg w) as [r Hr].
    destruct (IH (after_call X w)) as [results [w' [Hrest [Hl [Hc Hn]]]]].
    exists (r :: results), w'.
    cbn [process_segments]. rewrite Hr, Hrest.
    split; [reflexivity|].
    cbn [length]. rewrite time_in_calls_succ.
    cbn [after_call calls now] in Hc, Hn.
    split; [congruence|].
    split; [rewrite Hc | rewrite Hn]; lia.
Qed.

(** The loop makes one call to the service per unit and never sleeps:
    the number of calls grows by the number of units, and the clock by
    the time spent in these calls. *)
Theorem one_call_per_unit (X : Externals) (cfg : settings) (fuel : nat)
    (segments_to_process : list Segment) (w : World) :
  exists results w',
    process_segments X cfg (S fuel) segments_to_process w
    = Some (results, w')
    /\ calls w' = calls w + length segments_to_process
    /\ now w'
       = (now w
          + time_in_calls X (calls w) (length segments_to_process))%Z.
Proof.
  destruct (process_segments_calls X cfg fuel segments_to_process w)
    as [results [w' [H [_ [Hc Hn]]]]].
  exists results, w'. auto.
Qed.

(** The loop over two lists of units one after the other is the loop over
    the first, followed by the loop over the second from the state the
    first one leaves; the results come in that order. *)
Theorem process_segments_app (X : Externals) (cfg : settings) (fuel : nat)
    (first second : list Segment) (w : World) :
  process_segments X cfg fuel (first ++ second) w
  = match process_segments X cfg fuel first w with
    | None => None
    | Some (results1, w1) =>
        match process_segments X cfg fuel second w1 with
        | None => None
        | Some (results2, w2) => Some (results1 ++ results2, w2)
        end
    end.
Proof.
  revert w. induction first as [|seg segs IH]; intros w.
  - cbn [app process_segments].
    destruct (process_segments X cfg fuel second w) as [[rs w2]|];
      reflexivity.
  - cbn [app process_segments].
    destruct (process_segment X cfg fuel seg w) as [[r w1]|];
      [|reflexivity].
    rewrite IH.
    destruct (process_segments X cfg fuel segs w1) as [[rs1 w2]|];
      [|reflexivity].
    destruct (process_segments X cfg fuel second w2) as [[rs2 w3]|];
      reflexivity.
Qed.

(** The loop reads nothing of a unit but its text: two lists of units
    with the same texts, whatever their ids and their oversized marks,
    are processed alike. *)
Theorem only_text_is_read (X : Externals) (cfg : settings) (fuel : nat)
    (segs1 segs2 : list Segment) (w : World) :
  map text segs1 = map text segs2 ->
  process_segments X cfg fuel segs1 w = process_segments X cfg fuel segs2 w.
Proof.
  revert segs2 w.
  induction segs1 as [|s1 segs1 IH]; intros [|s2 segs2] w H;
    try discriminate H; [reflexivity|].
  injection H as Htext Hrest.
  cbn [process_segments].
  unfold process_segment. rewrite Htext.
  destruct (get_proofread_data X cfg fuel (text s2) w) as [[raw w1]|];
    [|reflexivity].
  destruct (bind raw (model_validate X)) as [edit|e];
    [|destruct (is_class ValidationError e)];
    rewrite (IH segs2 w1 Hrest); reflexivity.
Qed.

Lemma only_text_is_read_witness :
  process_segments Scenario.two_paragraphs defaults 1 [Scenario.seg0]
    initial_world
  = process_segments Scenario.two_paragraphs defaults 1 [Cases.seg0_long]
      initial_world.
Proof.
  apply (@only_text_is_read Scenario.two_paragraphs defaults 1
           [Scenario.seg0] [Cases.seg0_long] initial_world).
  reflexivity.
Defined.

Lemma differs_degraded (paragraph_text diagnostic : str) :
  differs (degraded_edit paragraph_text diagnostic) = false.
Proof. unfold differs. cbn [degraded_edit original corrected].
  rewrite eqb_refl. reflexivity. Qed.

Lemma failed_call_record (X : Externals) (cfg : settings) (fuel : nat)
    (segment_data : Segment) (w : World) (e : exn) :
  chat_completions_create X (calls w) (request_for cfg (text segment_data))
  = Raised e ->
  exists diagnostic,
    process_segment X cfg (S fuel) segment_data w
    = Some (degraded_edit (text segment_data) diagnostic, after_call X w).
Proof.
  intros Hcall. unfold process_segment. rewrite get_proofread_data_once.
  unfold get_proofread_data_body, try_block. rewrite Hcall. cbn [bind].
  destruct (is_class JSONDecodeError e); eexists; reflexivity.
Qed.

(** When every call to the service raises, the records are as many as
    the units, each with [original] and [corrected] equal to the text of
    its unit and one feedback entry, and none counts as corrected in the
    summary. *)
Theorem failed_run_counts_nothing (X : Externals) (cfg : settings)
    (fuel : nat) (segments_to_process : list Segment) (w : World) :
  (forall k r, exists e, chat_completions_create X k r = Raised e) ->
  exists results w',
    process_segments X cfg (S fuel) segments_to_process w
    = Some (results, w')
    /\ Forall2 (fun segment_data r =>
         original r = text segment_data
         /\ corrected r = text segment_data
         /\ length (feedback r) = 1)
         segments_to_process results
    /\ corrected_paragraphs results = 0.
Proof.
  intros Hdown. revert w.
  induction segments_to_process as [|seg segs IH]; intros w.
  - exists [], w. repeat split. constructor.
  - destruct (Hdown (calls w) (request_for cfg (text seg))) as [e He].
    destruct (failed_call_record X cfg fuel seg w He) as [d Hd].
    destruct (IH (after_call X w)) as [results [w' [Hrest [Hall Hcount]]]].
    exists (degraded_edit (text seg) d :: results), w'.
    cbn [process_segments]. rewrite Hd, Hrest.
    split; [reflexivity|]. split.
    + constructor; [repeat split | exact Hall].
    + unfold corrected_paragraphs in *. cbn [filter].
      rewrite differs_degraded. exact Hcount.
Qed.

Lemma failed_run_counts_nothing_witness :
  exists results w',
    process_segments Scenario.unreachable defaults 1
      [Scenario.seg0; Cases.seg0_long] initial_world
    = Some (results, w')
    /\ Forall2 (fun segment_data r =>
         original r = text segment_data
         /\ corrected r = text segment_data
         /\ length (feedback r) = 1)
         [Scenario.seg0; Cases.seg0_long] results
    /\ corrected_paragraphs results = 0.
Proof.
  apply (@failed_run_counts_nothing Scenario.unreachable defaults 0
           [Scenario.seg0; Cases.seg0_long] initial_world).
  intros k r. exists Scenario.connection_error.
  destruct k; reflexivity.
Defined.

(* ------------------------------------------------------------------ *)
(** ** More on the report *)

Lemma bullet_never_empty (item : str) :
  truthy (strip item) = true -> truthy (clean_item (strip item)) = true.
Proof.
  intros Hs. unfold clean_item.
  destruct (startswith (lit "- ") (strip item)) eqn:P; [|exact Hs].
  unfold slice_from. rewrite truthy_strip.
  destruct (blank (skipn 2 (strip item))) eqn:B; [exfalso|reflexivity].
  apply startswith_split in P.
  change (length (lit "- ")) with 2 in P.
  pose proof (strip_idem item) as Hidem.
  rewrite P in Hidem. unfold strip at 1 in Hidem.
  change (lstrip (lit "- " ++ skipn 2 (strip item)))
    with (45%N :: 32%N :: skipn 2 (strip item)) in Hidem.
  rewrite rstrip_cons_solid in Hidem by reflexivity.
  assert (R : rstrip (32%N :: skipn 2 (strip item)) = []).
  { apply rstrip_nil_iff. simpl. exact B. }
  rewrite R in Hidem. discriminate Hidem.
Qed.

Lemma bullets_of_kept (kept : list str) :
  Forall (fun item => truthy (strip item) = true) kept ->
  flat_map (fun item =>
    if truthy (clean_item item)
    then [add_paragraph (clean_item item) List_Bullet]
    else []) (map strip kept)
  = map (fun item => Paragraph [plain (clean_item (strip item))] List_Bullet)
      kept.
Proof.
  induction 1 as [|item kept Hitem _ IH]; [reflexivity|].
  cbn [map flat_map]. rewrite IH.
  unfold add_paragraph. rewrite (bullet_never_empty _ Hitem). reflexivity.
Qed.

Lemma filter_nil_iff {A} (f : A -> bool) (l : list A) :
  filter f l = [] <-> Forall (fun a => f a = false) l.
Proof.
  induction l as [|a l IH]; simpl.
  - split; [constructor | reflexivity].
  - destruct (f a) eqn:E.
    + split; [discriminate|]. intros H. inversion H. congruence.
    + rewrite IH. split; [constructor; assumption|].
      intros H. inversion H. assumption.
Qed.

Lemma feedback_blocks_kept (fb : list str) :
  feedback_blocks fb
  = match fb, filter (fun item => negb (blank item)) fb with
    | [], _ => [Paragraph [plain (lit "No feedback provided.")] None]
    | _ :: _, [] =>
        [Paragraph [plain (lit "No specific feedback provided.")] None]
    | _ :: _, k :: kept =>
        map (fun item =>
               Paragraph [plain (clean_item (strip item))] List_Bullet)
          (k :: kept)
    end.
Proof.
  assert (E : filter (fun item => truthy (strip item)) fb
              = filter (fun item => negb (blank item)) fb)
    by (apply filter_ext; intros item; apply truthy_strip).
  assert (K : Forall (fun item => truthy (strip item) = true)
                (filter (fun item => negb (blank item)) fb)).
  { rewrite <- E. apply Forall_forall. intros item Hin.
    apply filter_In in Hin. tauto. }
  destruct fb as [|f fb0]; [reflexivity|].
  unfold feedback_blocks. rewrite E.
  destruct (filter (fun item => negb (blank item)) (f :: fb0))
    as [|k kept] eqn:F; [reflexivity|].
  rewrite <- (bullets_of_kept K). reflexivity.
Qed.

(** The feedback part of a record: a fixed sentence when the feedback
    list is empty, another when all its entries are blank, and otherwise
    one bullet for each entry that is not blank, in order and none left
    out, whose text is the cleaned entry and is never empty. *)
Theorem feedback_section (fb : list str) :
  let kept := filter (fun item => negb (blank item)) fb in
  feedback_blocks fb
  = match fb, kept with
    | [], _ => [Paragraph [plain (lit "No feedback provided.")] None]
    | _ :: _, [] =>
        [Paragraph [plain (lit "No specific feedback provided.")] None]
    | _ :: _, _ :: _ =>
        map (fun item =>
               Paragraph [plain (clean_item (strip item))] List_Bullet) kept
    end
  /\ Forall (fun item => clean_item (strip item) <> []) kept.
Proof.
  cbv zeta. split.
  - rewrite feedback_blocks_kept.
    destruct fb as [|f fb0]; [reflexivity|].
    destruct (filter (fun item => negb (blank item)) (f :: fb0));
      reflexivity.
  - apply Forall_forall. intros item Hin. apply filter_In in Hin.
    destruct Hin as [_ Hnb].
    apply truthy_true, bullet_never_empty.
    rewrite truthy_strip. exact Hnb.
Qed.













(** A control character in a corrected text ends the building of the
    report with the exception of the library. *)
Example report_refuses_control_character :
  snd (create_output_document [Cases.with_control]) = Some XMLValueError
  /\ snd (create_output_document [Cases.nested]) = None.
Proof. split; vm_compute; reflexivity. Qed.

Lemma feedback_blocks_paragraphs (fb : list str) (b : block) :
  In b (feedback_blocks fb) ->
  exists t, b = add_paragraph t None \/ b = add_paragraph t List_Bullet.
Proof.
  unfold feedback_blocks. destruct fb as [|f fb0].
  { intros [<-|[]]. eexists. left. reflexivity. }
  destruct (map strip _) as [|i0 items] eqn:E.
  { intros [<-|[]]. eexists. left. reflexivity. }
  rewrite <- E. intros H. apply in_flat_map in H.
  destruct H as [item [_ H]].
  destruct (truthy (clean_item item)); [|contradiction].
  destruct H as [<-|[]]. eexists. right. reflexivity.
Qed.

Lemma filter_none {A} (f : A -> bool) (l : list A) :
  (forall a, In a l -> f a = false) -> filter f l = [].
Proof.
  induction l as [|a l IH]; intros H; [reflexivity|].
  simpl. rewrite (H a (or_introl eq_refl)). apply IH.
  intros b Hb. apply H. right. exact Hb.
Qed.

Lemma flat_map_none {A B} (f : A -> list B) (l : list A) :
  (forall a, In a l -> f a = []) -> flat_map f l = [].
Proof.
  induction l as [|a l IH]; intros H; [reflexivity|].
  simpl. rewrite (H a (or_introl eq_refl)). apply IH.
  intros b Hb. apply H. right. exact Hb.
Qed.

Lemma feedback_blocks_plain (fb : list str) :
  filter highlighted (feedback_blocks fb) = [].
Proof.
  apply filter_none. intros b Hb.
  destruct (feedback_blocks_paragraphs _ _ Hb) as [t [->| ->]];
    unfold add_paragraph; destruct (truthy t); reflexivity.
Qed.

Lemma feedback_blocks_no_heading (fb : list str) :
  headings (feedback_blocks fb) = [].
Proof.
  apply flat_map_none. intros b Hb.
  destruct (feedback_blocks_paragraphs _ _ Hb) as [t [->| ->]]; reflexivity.
Qed.

Lemma feedback_blocks_no_quote (fb : list str) :
  quotes (feedback_blocks fb) = [].
Proof.
  apply flat_map_none. intros b Hb.
  destruct (feedback_blocks_paragraphs _ _ Hb) as [t [->| ->]]; reflexivity.
Qed.

Lemma headings_app (a b : list block) :
  headings (a ++ b) = headings a ++ headings b.
Proof. apply flat_map_app. Qed.

Lemma quotes_app (a b : list block) :
  quotes (a ++ b) = quotes a ++ quotes b.
Proof. apply flat_map_app. Qed.

(** What one record adds to a report that is built to the end. *)
Lemma edit_blocks_read (i : nat) (edit_item : Edit) :
  snd (edit_blocks i edit_item) = None ->
  length (filter highlighted (fst (edit_blocks i edit_item)))
  = (if differs edit_item then 1 else 0)
  /\ headings (fst (edit_blocks i edit_item)) = record_headings i
  /\ quotes (fst (edit_blocks i edit_item))
     = [if truthy (original edit_item)
        then [plain (original edit_item)] else []].
Proof.
  unfold edit_blocks.
  destruct (differs edit_item);
    [destruct (truthy (corrected edit_item)) eqn:T|].
  - intros H. rewrite (hand_over_all _ H). repeat split.
    + cbn [app filter highlighted heading_of add_paragraph].
      destruct (truthy (original edit_item)); cbn;
        rewrite filter_app, feedback_blocks_plain; reflexivity.
    + cbn [app headings flat_map heading_of add_paragraph].
      rewrite headings_app, feedback_blocks_no_heading. reflexivity.
    + cbn [app quotes flat_map heading_of add_paragraph].
      rewrite quotes_app, feedback_blocks_no_quote. reflexivity.
  - destruct (hand_over _) as [added [e'|]]; discriminate.
  - intros H. rewrite (hand_over_all _ H). repeat split.
    + cbn [app filter highlighted heading_of add_paragraph].
      destruct (truthy (original edit_item));
        destruct (truthy (corrected edit_item)); cbn;
        rewrite filter_app, feedback_blocks_plain; reflexivity.
    + cbn [app headings flat_map heading_of add_paragraph].
      rewrite headings_app, feedback_blocks_no_heading. reflexivity.
    + cbn [app quotes flat_map heading_of add_paragraph].
      rewrite quotes_app, feedback_blocks_no_quote. reflexivity.
Qed.

Lemma blocks_from_read (results : list Edit) :
  forall i,
    snd (blocks_from i results) = None ->
    length (filter highlighted (fst (blocks_from i results)))
    = length (filter differs results)
    /\ headings (fst (blocks_from i results))
       = flat_map record_headings (seq i (length results))
    /\ quotes (fst (blocks_from i results))
       = map (fun e => if truthy (original e) then [plain (original e)]
                       else []) results.
Proof.
  induction results as [|e results IH]; intros i; [repeat split|].
  cbn [blocks_from].
  pose proof (edit_blocks_read i e) as He.
  destruct (edit_blocks i e) as [bs [ex|]]; [discriminate|].
  specialize (IH (S i)).
  destruct (blocks_from (S i) results) as [bs' r].
  cbn [fst snd] in *. intros Hr.
  destruct (He eq_refl) as [Hh [Hhd Hq]].
  destruct (IH Hr) as [IHh [IHhd IHq]].
  split; [|split].
  - rewrite filter_app, length_app, Hh, IHh. cbn [filter].
    destruct (differs e); reflexivity.
  - rewrite headings_app, Hhd, IHhd. reflexivity.
  - rewrite quotes_app, Hq, IHq. reflexivity.
Qed.

Lemma report_read (results : list Edit) :
  snd (create_output_document results) = None ->
  length (filter highlighted (fst (create_output_document results)))
  = corrected_paragraphs results
  /\ headings (fst (create_output_document results))
     = (lit "AI Proofreading Report", 0)
       :: flat_map record_headings (seq 0 (length results))
  /\ quotes (fst (create_output_document results))
     = map (fun e => if truthy (original e) then [plain (original e)]
                     else []) results.
Proof.
  unfold create_output_document.
  pose proof (blocks_from_read results 0) as H.
  destruct (blocks_from 0 results) as [bs r]. cbn [fst snd] in *.
  intros Hr. destruct (H Hr) as [Hh [Hhd Hq]].
  split; [|split].
  - unfold corrected_paragraphs. rewrite sum_of_ones, <- Hh. reflexivity.
  - cbn [headings flat_map summary_block add_paragraph app].
    destruct (truthy (times (lit "=") 50)); cbn [app]; f_equal; exact Hhd.
  - cbn [quotes flat_map summary_block add_paragraph app]. exact Hq.
Qed.

(** In a report that is built to the end, the paragraphs that are
    highlighted are as many as the corrected paragraphs the summary
    announces. *)
Theorem highlights_match_summary (results : list Edit) :
  snd (create_output_document results) = None ->
  length (filter highlighted (fst (create_output_document results)))
  = corrected_paragraphs results.
Proof. intros H. apply (report_read results H). Qed.

Lemma highlights_match_summary_witness :
  length (filter highlighted
            (fst (create_output_document
                    [Scenario.bulleted;
                     degraded_edit Scenario.para1 (lit "API Error: down")])))
  = corrected_paragraphs
      [Scenario.bulleted;
       degraded_edit Scenario.para1 (lit "API Error: down")].
Proof.
  apply (@highlights_match_summary
           [Scenario.bulleted;
            degraded_edit Scenario.para1 (lit "API Error: down")]).
  reflexivity.
Defined.

(** In a report that is built to the end, the headings are the title and
    then, for each record in order, the three headings of the record,
    numbered from 1. *)
Theorem headings_numbered (results : list Edit) :
  snd (create_output_document results) = None ->
  headings (fst (create_output_document results))
  = (lit "AI Proofreading Report", 0)
    :: flat_map record_headings (seq 0 (length results)).
Proof. intros H. apply (report_read results H). Qed.

Lemma headings_numbered_witness :
  headings (fst (create_output_document
                   [Scenario.bulleted; Scenario.bulleted]))
  = (lit "AI Proofreading Report", 0)
    :: flat_map record_headings (seq 0 2).
Proof.
  apply (@headings_numbered [Scenario.bulleted; Scenario.bulleted]).
  reflexivity.
Defined.

(** In a report that is built to the end, the quoted paragraphs are the
    original texts of the records, one per record and in order (an empty
    original gives a paragraph without a run). *)
Theorem quotes_are_originals (results : list Edit) :
  snd (create_output_document results) = None ->
  quotes (fst (create_output_document results))
  = map (fun e => if truthy (original e) then [plain (original e)] else [])
      results.
Proof. intros H. apply (report_read results H). Qed.

Lemma quotes_are_originals_witness :
  quotes (fst (create_output_document
                 [degraded_edit Scenario.para1 (lit "API Error: down");
                  Scenario.bulleted]))
  = [[plain Scenario.para1]; [plain Scenario.para0]].
Proof.
  apply (@quotes_are_originals
           [degraded_edit Scenario.para1 (lit "API Error: down");
            Scenario.bulleted]).
  reflexivity.
Defined.

(* ------------------------------------------------------------------ *)
(** ** More on the segments *)

Lemma segments_from_shift (enc : str -> outcome (list N))
    (overhead budget : Z) (paragraphs : list str) :
  forall i k,
    segments_from enc overhead budget (k + i) paragraphs
    = bind (segments_from enc overhead budget i paragraphs)
        (fun segs => Returned (map (shifted k) segs)).
Proof.
  induction paragraphs as [|p ps IH]; intros i k; [reflexivity|].
  cbn [segments_from].
  destruct (enc p) as [tokens|e]; cbn [bind]; [|reflexivity].
  rewrite plus_n_Sm, IH.
  destruct (segments_from enc overhead budget (S i) ps) as [rest|e];
    cbn [bind map]; [|reflexivity].
  f_equal. f_equal. destruct (_ >? _)%Z; reflexivity.
Qed.

Lemma segments_from_app (enc : str -> outcome (list N))
    (overhead budget : Z) (first second : list str) :
  forall i,
    segments_from enc overhead budget i (first ++ second)
    = bind (segments_from enc overhead budget i first) (fun segs1 =>
      bind (segments_from enc overhead budget (length first + i) second)
        (fun segs2 => Returned (segs1 ++ segs2))).
Proof.
  induction first as [|p ps IH]; intros i.
  - cbn [app segments_from bind length Nat.add].
    destruct (segments_from enc overhead budget i second); reflexivity.
  - cbn [app segments_from length].
    destruct (enc p) as [tokens|e]; cbn [bind]; [|reflexivity].
    rewrite IH, <- plus_n_Sm.
    change (S (length ps) + i) with (S (length ps + i)).
    destruct (segments_from enc overhead budget (S i) ps) as [rest|e];
      cbn [bind]; [|reflexivity].
    destruct (segments_from enc overhead budget (S (length ps + i)) second);
      reflexivity.
Qed.

(** The segments of two lists of paragraphs put end to end are those of
    the first list followed by those of the second with their ids moved
    on by the length of the first, and the segmenter raises on the two
    lists together as it does on the first, or else on the second: the
    mark of a unit depends on its own text only. *)
Theorem prepare_segments_app (X : Externals) (first second : list str)
    (model_name : str) (budget : Z) :
  prepare_segments_for_api X (first ++ second) model_name budget
  = bind (prepare_segments_for_api X first model_name budget) (fun segs1 =>
    bind (prepare_segments_for_api X second model_name budget) (fun segs2 =>
    Returned (segs1 ++ map (shifted (length first)) segs2))).
Proof.
  unfold prepare_segments_for_api.
  destruct (encoding_for_model X model_name) as [enc|e]; cbn [bind];
    [|reflexivity].
  destruct (prompt_overhead enc) as [overhead|e]; cbn [bind];
    [|reflexivity].
  rewrite segments_from_app.
  destruct (segments_from enc overhead budget 0 first) as [segs1|e];
    cbn [bind]; [|reflexivity].
  rewrite segments_from_shift.
  destruct (segments_from enc overhead budget 0 second); reflexivity.
Qed.

Lemma segments_from_budget (enc : str -> outcome (list N))
    (overhead budget budget' : Z) (paragraphs : list str) :
  (budget <= budget')%Z ->
  forall i,
    match segments_from enc overhead budget i paragraphs,
          segments_from enc overhead budget' i paragraphs with
    | Returned segs, Returned segs' =>
        Forall2 (fun s s' =>
          id s = id s' /\ text s = text s'
          /\ (is_long s' = true -> is_long s = true)) segs segs'
    | Raised e, Raised e' => e = e'
    | _, _ => False
    end.
Proof.
  intros Hle. induction paragraphs as [|p ps IH]; intros i;
    cbn [segments_from]; [constructor|].
  destruct (enc p) as [tokens|e]; cbn [bind]; [|reflexivity].
  specialize (IH (S i)).
  destruct (segments_from enc overhead budget (S i) ps) as [rest|e];
    destruct (segments_from enc overhead budget' (S i) ps) as [rest'|e'];
    cbn [bind]; try exact IH.
  constructor; [|exact IH].
  destruct (_ >? budget)%Z eqn:E; destruct (_ >? budget')%Z eqn:E';
    cbn [id text is_long]; repeat split; try discriminate.
  apply Z.gtb_gt in E'.
  assert (G : (Z.of_nat (length tokens) + overhead >? budget)%Z = true)
    by (apply Z.gtb_gt; lia).
  congruence.
Qed.

(** A larger budget marks no more units: with the same paragraphs and
    model, the segmenter gives units under both budgets or raises the
    same exception under both, and every unit that is oversized under the
    larger budget is oversized under the smaller one, with the same id
    and text. *)
Theorem larger_budget_marks_fewer (X : Externals) (paragraphs : list str)
    (model_name : str) (budget budget' : Z) :
  (budget <= budget')%Z ->
  match prepare_segments_for_api X paragraphs model_name budget,
        prepare_segments_for_api X paragraphs model_name budget' with
  | Returned segs, Returned segs' =>
      Forall2 (fun s s' =>
        id s = id s' /\ text s = text s'
        /\ (is_long s' = true -> is_long s = true)) segs segs'
  | Raised e, Raised e' => e = e'
  | _, _ => False
  end.
Proof.
  intros H. unfold prepare_segments_for_api.
  destruct (encoding_for_model X model_name) as [enc|e]; cbn [bind];
    [|reflexivity].
  destruct (prompt_overhead enc) as [overhead|e]; cbn [bind];
    [|reflexivity].
  apply segments_from_budget, H.
Qed.

Lemma larger_budget_marks_fewer_witness :
  match prepare_segments_for_api Scenario.two_paragraphs
          [Scenario.para0; Scenario.para1] (lit "gpt-4o-mini") 850,
        prepare_segments_for_api Scenario.two_paragraphs
          [Scenario.para0; Scenario.para1] (lit "gpt-4o-mini") 4000 with
  | Returned segs, Returned segs' =>
      Forall2 (fun s s' =>
        id s = id s' /\ text s = text s'
        /\ (is_long s' = true -> is_long s = true)) segs segs'
  | Raised e, Raised e' => e = e'
  | _, _ => False
  end.
Proof.
  apply (@larger_budget_marks_fewer Scenario.two_paragraphs
           [Scenario.para0; Scenario.para1] (lit "gpt-4o-mini") 850 4000).
  lia.
Defined.

Lemma prompt_overhead_floor (enc : str -> outcome (list N)) (overhead : Z) :
  prompt_overhead enc = Returned overhead -> (200 <= overhead)%Z.
Proof.
  unfold prompt_overhead.
  destruct (enc (replace _ _ _)) as [a|e]; cbn [bind]; [|discriminate].
  destruct (enc SYSTEM_PROMPT) as [b|e]; cbn [bind]; [|discriminate].
  intros [= <-]. lia.
Qed.

(** The overhead is never less than its buffer of 200 tokens, so under a
    budget below 200 every unit the segmenter gives is marked oversized,
    whatever the tokenizer and the paragraphs. *)
Theorem small_budget_marks_all (X : Externals) (paragraphs : list str)
    (model_name : str) (budget : Z) (segs : list Segment) :
  (budget < 200)%Z ->
  prepare_segments_for_api X paragraphs model_name budget = Returned segs ->
  Forall (fun s => is_long s = true) segs.
Proof.
  intros Hb. unfold prepare_segments_for_api.
  destruct (encoding_for_model X model_name) as [enc|e]; cbn [bind];
    [|discriminate].
  destruct (prompt_overhead enc) as [overhead|e] eqn:O; cbn [bind];
    [|discriminate].
  apply prompt_overhead_floor in O. intros H.
  apply segments_from_returned in H. destruct H as [_ [_ [_ H]]].
  eapply Forall_impl; [|exact H].
  intros s [tokens [_ Hiff]]. apply Hiff. lia.
Qed.

Lemma small_budget_marks_all_witness :
  Forall (fun s => is_long s = true)
    [ {| id := 0; text := Scenario.para0; is_long := true |};
      {| id := 1; text := Scenario.para1; is_long := true |} ].
Proof.
  apply (@small_budget_marks_all Scenario.two_paragraphs
           [Scenario.para0; Scenario.para1] (lit "gpt-4o-mini") 100).
  - lia.
  - reflexivity.
Defined.

(* ------------------------------------------------------------------ *)
(** ** The run *)

Lemma loaded_nil_iff (texts : list str) :
  map strip (filter (fun t => truthy (strip t)) texts) = []
  <-> Forall (fun t => blank t = true) texts.
Proof.
  rewrite (filter_ext _ (fun t => negb (blank t)) truthy_strip).
  split.
  - intros H. apply map_eq_nil, filter_nil_iff in H.
    eapply Forall_impl; [|exact H].
    intros t Ht. apply negb_false_iff, Ht.
  - intros H.
    assert (F : filter (fun t => negb (blank t)) texts = []).
    { apply filter_nil_iff. eapply Forall_impl; [|exact H].
      intros t Ht. rewrite Ht. reflexivity. }
    rewrite F. reflexivity.
Qed.

Lemma prepare_segments_length (X : Externals) (paragraphs : list str)
    (model_name : str) (budget : Z) (segs : list Segment) :
  prepare_segments_for_api X paragraphs model_name budget = Returned segs ->
  length segs = length paragraphs.
Proof.
  unfold prepare_segments_for_api.
  destruct (encoding_for_model X model_name) as [enc|e]; cbn [bind];
    [|discriminate].
  destruct (prompt_overhead enc) as [overhead|e]; cbn [bind];
    [|discriminate].
  intros H. apply segments_from_returned in H. tauto.
Qed.

(** The run ends for want of paragraphs exactly when the input document
    exists and all its paragraphs are blank; the service is not called. *)
Theorem main_no_paragraphs_iff (X : Externals) (cfg : settings) (p : paths)
    (fuel : nat) (fs : str -> option (list str)) (can_save : bool)
    (w w' : World) :
  main X cfg p fuel fs can_save w = Some (NoParagraphs, w')
  <-> w' = w
      /\ exists texts,
           fs (INPUT_DOCX_PATH p) = Some texts
           /\ Forall (fun t => blank t = true) texts.
Proof.
  unfold main, load_paragraphs.
  destruct (fs (INPUT_DOCX_PATH p)) as [texts|].
  2:{ split; [discriminate | intros [_ [texts [H _]]]; discriminate H]. }
  destruct (map strip (filter (fun t => truthy (strip t)) texts))
    as [|p0 ps] eqn:L.
  - apply loaded_nil_iff in L. split.
    + intros [= <-]. split; [reflexivity|]. exists texts. auto.
    + intros [-> _]. reflexivity.
  - split.
    + destruct (prepare_segments_for_api X (p0 :: ps) _ _)
        as [[|s0 segs]|e]; try discriminate.
      destruct (process_segments _ _ _ _ _) as [[results w1]|];
        [|discriminate].
      destruct (create_output_document results) as [doc [e|]];
        discriminate.
    + intros [_ [texts' [[= <-] Hall]]].
      apply loaded_nil_iff in Hall. congruence.
Qed.

(** The run never ends for want of segments: the second guard of [main]
    cannot fire, since a list of paragraphs that is not empty gives a
    list of segments that is not empty. *)
Theorem main_always_has_segments (X : Externals) (cfg : settings)
    (p : paths) (fuel : nat) (fs : str -> option (list str))
    (can_save : bool) (w w' : World) :
  main X cfg p fuel fs can_save w <> Some (NoSegments, w').
Proof.
  unfold main.
  destruct (load_paragraphs _ _) as [[|p0 ps]|e]; try discriminate.
  destruct (prepare_segments_for_api X (p0 :: ps) _ _)
    as [[|s0 segs]|e] eqn:P; try discriminate.
  - apply prepare_segments_length in P. discriminate P.
  - destruct (process_segments _ _ _ _ _) as [[results w1]|];
      [|discriminate].
    destruct (create_output_document results) as [doc [e|]]; discriminate.
Qed.

(** A run on a document with a paragraph that is not blank: when the
    segmenter raises on the trimmed paragraphs, the run raises the same
    exception before any call to the service; otherwise it makes one call
    per paragraph that is not blank, and ends either with the report
    built, the total of its summary being the number of these
    paragraphs, or with the exception of the building of the report. *)
Theorem main_runs (X : Externals) (cfg : settings) (p : paths)
    (fuel : nat) (fs : str -> option (list str)) (can_save : bool)
    (w : World) (texts : list str) :
  fs (INPUT_DOCX_PATH p) = Some texts ->
  filter (fun t => negb (blank t)) texts <> [] ->
  let kept := filter (fun t => negb (blank t)) texts in
  let n := length kept in
  match prepare_segments_for_api X (map strip kept) (OPENAI_MODEL cfg)
          (MAX_TOKENS_PER_API_REQUEST cfg) with
  | Raised e => main X cfg p (S fuel) fs can_save w = Some (Failed e, w)
  | Returned _ =>
      exists results w',
        length results = n
        /\ calls w' = calls w + n
        /\ main X cfg p (S fuel) fs can_save w
           = Some (match create_output_document results with
                   | (_, Some e) => Failed e
                   | (report, None) =>
                       Finished report can_save
                         (length (filter differs results)) n
                   end, w')
  end.
Proof.
  intros Hfs Hkept. cbv zeta. unfold main, load_paragraphs. rewrite Hfs.
  rewrite (filter_ext _ (fun t => negb (blank t)) truthy_strip).
  destruct (filter (fun t => negb (blank t)) texts) as [|k kept] eqn:K;
    [contradiction|].
  cbn [map].
  destruct (prepare_segments_for_api X (strip k :: map strip kept) _ _)
    as [segs|e] eqn:P; [|reflexivity].
  apply prepare_segments_length in P. cbn [length] in P.
  rewrite length_map in P.
  destruct segs as [|s0 segs]; [discriminate P|].
  destruct (process_segments_calls X cfg fuel (s0 :: segs) w)
    as [results [w' [Hrun [Hl [Hc _]]]]].
  exists results, w'. cbn [length] in *.
  split; [congruence|]. split; [congruence|].
  rewrite Hrun.
  destruct (create_output_document results) as [doc [e|]];
    [reflexivity|].
  unfold corrected_paragraphs, total_paragraphs. rewrite sum_of_ones.
  repeat f_equal. congruence.
Qed.

Lemma main_runs_witness :
  exists results w',
    length results = 2
    /\ calls w' = 2
    /\ main Scenario.two_paragraphs defaults default_paths 1 Cases.draft
         true initial_world
       = Some (match create_output_document results with
               | (_, Some e) => Failed e
               | (report, None) =>
                   Finished report true (length (filter differs results)) 2
               end, w').
Proof.
  apply (@main_runs Scenario.two_paragraphs defaults default_paths 0
           Cases.draft true initial_world
           [ lit "  The frist paragraph. "; lit "   "; Scenario.para1 ]).
  - reflexivity.
  - vm_compute. discriminate.
Defined.

(* ------------------------------------------------------------------ *)
(** ** The configuration *)

(** The configuration loads exactly when the API key is set and not
    empty and the temperature and the two integer settings parse, from
    the environment or from their defaults; it then holds the values of
    the environment, with the defaults for the variables that are not
    set. *)
Theorem config_loads_iff (float : Type) (py_float : str -> outcome float)
    (py_int : str -> outcome Z) (env : str -> option str)
    (c : module_config float) :
  load_config py_float py_int env = Returned c
  <-> exists key temperature max_tokens max_retry,
        env (lit "OPENAI_API_KEY") = Some key /\ key <> []
        /\ py_float (getenv env (lit "TEMPERATURE") (lit "0.0"))
           = Returned temperature
        /\ py_int (getenv env (lit "MAX_TOKENS_PER_API_REQUEST")
                     (lit "4000")) = Returned max_tokens
        /\ py_int (getenv env (lit "MAX_RETRY_TIME_SECONDS") (lit "60"))
           = Returned max_retry
        /\ c = {| OPENAI_API_KEY := key;
                  TEMPERATURE := temperature;
                  the_settings :=
                    {| OPENAI_MODEL :=
                         getenv env (lit "OPENAI_MODEL") (lit "gpt-4o-mini");
                       MAX_TOKENS_PER_API_REQUEST := max_tokens;
                       MAX_RETRY_TIME_SECONDS := max_retry |};
                  the_paths :=
                    {| INPUT_DOCX_PATH :=
                         getenv env (lit "INPUT_DOCX_PATH")
                           (lit "my_draft.docx");
                       OUTPUT_DOCX_PATH :=
                         getenv env (lit "OUTPUT_DOCX_PATH")
                           (lit "proofread_output.docx") |} |}.
Proof.
  unfold load_config.
  destruct (py_float _) as [t|e1]; cbn [bind].
  2:{ split; [discriminate|].
      intros [k [t [m [r [_ [_ [H _]]]]]]]. discriminate H. }
  destruct (py_int (getenv env (lit "MAX_TOKENS_PER_API_REQUEST") _))
    as [m|e2]; cbn [bind].
  2:{ split; [discriminate|].
      intros [k [t' [m [r [_ [_ [_ [H _]]]]]]]]. discriminate H. }
  destruct (py_int (getenv env (lit "MAX_RETRY_TIME_SECONDS") _))
    as [r|e3]; cbn [bind].
  2:{ split; [discriminate|].
      intros [k [t' [m' [r [_ [_ [_ [_ [H _]]]]]]]]]. discriminate H. }
  destruct (env (lit "OPENAI_API_KEY")) as [[|k0 key]|].
  - split; [discriminate|].
    intros [k [t' [m' [r' [[= <-] [H _]]]]]]. contradiction.
  - split.
    + intros [= <-]. exists (k0 :: key), t, m, r.
      repeat split; discriminate.
    + intros [k [t' [m' [r' [[= <-] [_ [[= <-] [[= <-] [[= <-] ->]]]]]]]]].
      reflexivity.
  - split; [discriminate|].
    intros [k [t' [m' [r' [H _]]]]]. discriminate H.
Qed.
